(** * PatternFlow / recognition / 46425254-VQVAE / modules.py

    A shallow embedding of the vector quantizer [VQ.forward], of the mask
    builder [conv_mask_abstract] and of the constructor of [MaskedConv2d].

    Tensors are a shape together with the row-major (contiguous) sequence of
    their elements, which is what [permute(...).contiguous()] and [view] act
    on; all of them live on one device.

    The code is written once over an interface of scalars ([Scalar]) and run
    at three instances.  At IEEE 754 binary32 ([Scalar_f32]), the default
    element type of the tensors, every operation rounds as the hardware
    does: this is the instance that says which index is selected and which
    numbers are returned.  At exact rationals ([Scalar_Q]) no operation
    rounds: it gives the values the formulas stand for, and is used for the
    sign and the composition of the loss.  At dual numbers ([Scalar_dual])
    the derivative along one direction of the encoder input and of the
    codebook is carried along, as in forward-mode automatic differentiation,
    and [detach] drops it.  The mean of an empty tensor (0/0) is kept as
    [NaN] at every instance. *)

From Stdlib Require Import String Bool.
From Stdlib Require Import List Arith ZArith QArith Lia Lqa.
From Stdlib Require Import SpecFloat.
Import ListNotations.

Close Scope Q_scope.
Open Scope nat_scope.
Set Implicit Arguments.

(** ** Exceptions and results *)

Inductive exn : Type :=
| RuntimeError   (* shape errors of permute, view and matmul *)
| IndexError     (* index out of range, reduction over an empty dimension *)
| TypeError      (* calling a value that is not callable *)
| KeyError       (* register_buffer on an attribute that exists *)
| ValueError.    (* the base constructor refusing its arguments *)

Inductive result (A : Type) : Type :=
| Ok (a : A)
| Raise (e : exn).

Arguments Ok {A} a.
Arguments Raise {A} e.

Definition bind {A B : Type} (r : result A) (k : A -> result B) : result B :=
  match r with
  | Ok a => k a
  | Raise e => Raise e
  end.

Notation "x <- r ;; k" := (bind r (fun x => k))
  (at level 61, r at next level, right associativity).

Definition raises {A : Type} (r : result A) : Prop := exists e, r = Raise e.

(** ** Scalars with a gradient-blocking primitive *)

Class Scalar (T : Type) : Type := {
  sadd    : T -> T -> T;
  ssub    : T -> T -> T;
  smul    : T -> T -> T;
  sdivn   : T -> nat -> T;      (* division by an element count *)
  sconst  : Q -> T;             (* a constant of the program *)
  sdetach : T -> T;             (* .detach() *)
  sval    : T -> Q              (* the forward value *)
}.

Definition Qdivn (x : Q) (n : nat) : Q := (x / inject_Z (Z.of_nat n))%Q.

(** Exact arithmetic: no operation rounds, overflows or produces a NaN.
    These are not the numbers a float32 tensor holds; what is proved at this
    instance is a fact about the formulas of the program. *)
#[export] Instance Scalar_Q : Scalar Q := {
  sadd := Qplus;
  ssub := Qminus;
  smul := Qmult;
  sdivn := Qdivn;
  sconst := fun q => q;
  sdetach := fun x => x;
  sval := fun x => x
}.

(** A value with its derivative along the chosen direction. *)
Record dual : Type := Dual { val : Q; tan : Q }.

#[export] Instance Scalar_dual : Scalar dual := {
  sadd := fun a b => Dual (val a + val b)%Q (tan a + tan b)%Q;
  ssub := fun a b => Dual (val a - val b)%Q (tan a - tan b)%Q;
  smul := fun a b => Dual (val a * val b)%Q (tan a * val b + val a * tan b)%Q;
  sdivn := fun a n => Dual (Qdivn (val a) n) (Qdivn (tan a) n);
  sconst := fun q => Dual q 0%Q;
  sdetach := fun a => Dual (val a) 0%Q;
  sval := val
}.

(** IEEE 754 binary32, the element type of a [torch.float32] tensor: 24
    bits of precision, round to nearest with ties to even, signed zeros,
    infinities and NaN.  Each operation of the program is one rounded
    operation; a reduction adds its terms in the order of [ssum] below (the
    library leaves its own order open). *)
Definition f32 : Type := spec_float.

Definition prec32 : Z := 24.
Definition emax32 : Z := 128.

(** An integer, and a constant of the program, rounded to binary32. *)
Definition f32_of_Z (z : Z) : f32 := binary_normalize prec32 emax32 z 0 false.

Definition f32_of_Q (q : Q) : f32 :=
  let round (s : bool) (n : positive) :=
    let '(m, e, l) :=
      SFdiv_core_binary prec32 emax32 (Zpos n) 0 (Zpos (Qden q)) 0 in
    binary_round_aux prec32 emax32 s m e l in
  match Qnum q with
  | Z0 => S754_zero false
  | Zpos n => round false n
  | Zneg n => round true n
  end.

(** The rational that a finite value stands for.  The other values get the
    place [torch.argmin] gives them: plus and minus infinity lie beyond
    every finite value, and a NaN counts as less than everything. *)
Definition f32_value (x : f32) : Q :=
  match x with
  | S754_zero _ => 0%Q
  | S754_finite s m e => (inject_Z (cond_Zopp s (Zpos m)) * Qpower 2 e)%Q
  | S754_infinity s => (inject_Z (cond_Zopp s 1) * Qpower 2 emax32)%Q
  | S754_nan => (- Qpower 2 (emax32 + 1))%Q
  end.

#[export] Instance Scalar_f32 : Scalar f32 := {
  sadd := SFadd prec32 emax32;
  ssub := SFsub prec32 emax32;
  smul := SFmul prec32 emax32;
  sdivn := fun x n => SFdiv prec32 emax32 x (f32_of_Z (Z.of_nat n));
  sconst := f32_of_Q;
  sdetach := fun x => x;
  sval := f32_value
}.

(** A rational rounded to float32, as a rational again. *)
Definition round_float32 (q : Q) : Q := f32_value (f32_of_Q q).

(** A scalar result of a reduction: [NaN] is the mean of no element. *)
Inductive loss (T : Type) : Type :=
| Num (t : T)
| NaN.

Arguments Num {T} t.
Arguments NaN {T}.

(** ** Tensors *)

Record tensor (T : Type) : Type := Tensor {
  shape : list nat;
  data : list T
}.

Definition numel (s : list nat) : nat := fold_right Nat.mul 1 s.

Definition tensor_wf {T : Type} (t : tensor T) : Prop :=
  length (data t) = numel (shape t).

Definition tab1 {A : Type} (n : nat) (f : nat -> A) : list A :=
  map f (seq 0 n).

Definition tab2 {A : Type} (n m : nat) (f : nat -> nat -> A) : list A :=
  concat (tab1 n (fun i => tab1 m (f i))).

Definition tab4 {A : Type} (n0 n1 n2 n3 : nat)
    (f : nat -> nat -> nat -> nat -> A) : list A :=
  concat (tab1 n0 (fun i0 =>
    concat (tab1 n1 (fun i1 =>
      concat (tab1 n2 (fun i2 => tab1 n3 (f i0 i1 i2))))))).

Fixpoint zip_with {A B C : Type} (f : A -> B -> C) (l : list A) (r : list B)
    : list C :=
  match l, r with
  | a :: l', b :: r' => f a b :: zip_with f l' r'
  | _, _ => []
  end.

Section Tensors.
Context {T : Type} {ST : Scalar T}.

Definition dim (t : tensor T) (i : nat) : nat := nth i (shape t) 0.

(** Element [(i, j)] of a 2-d tensor, [(i0, i1, i2, i3)] of a 4-d one. *)
Definition get2 (t : tensor T) (i j : nat) : T :=
  nth (i * dim t 1 + j) (data t) (sconst 0%Q).

Definition get4 (t : tensor T) (i0 i1 i2 i3 : nat) : T :=
  nth (((i0 * dim t 1 + i1) * dim t 2 + i2) * dim t 3 + i3) (data t)
      (sconst 0%Q).

Definition ssum (l : list T) : T := fold_right sadd (sconst 0%Q) l.

(** [t.permute(0, 2, 3, 1).contiguous()] *)
Definition permute_0231 (t : tensor T) : result (tensor T) :=
  match shape t with
  | [b; c; h; w] =>
      Ok (Tensor [b; h; w; c]
            (tab4 b h w c (fun ib ih iw ic => get4 t ib ic ih iw)))
  | _ => Raise RuntimeError
  end.

(** [t.permute(0, 3, 1, 2).contiguous()] *)
Definition permute_0312 (t : tensor T) : result (tensor T) :=
  match shape t with
  | [b; h; w; c] =>
      Ok (Tensor [b; c; h; w]
            (tab4 b c h w (fun ib ic ih iw => get4 t ib ih iw ic)))
  | _ => Raise RuntimeError
  end.

(** [t.view(-1, d)]: the missing dimension is inferred; it cannot be when
    [d] is 0 and the element count must be a multiple of [d]. *)
Definition view_rows (d : nat) (t : tensor T) : result (tensor T) :=
  let n := numel (shape t) in
  if d =? 0 then Raise RuntimeError
  else if n mod d =? 0 then Ok (Tensor [n / d; d] (data t))
  else Raise RuntimeError.

(** [t.view(s)] *)
Definition view (s : list nat) (t : tensor T) : result (tensor T) :=
  if numel s =? numel (shape t) then Ok (Tensor s (data t))
  else Raise RuntimeError.

(** [t ** 2] *)
Definition pow2 (t : tensor T) : tensor T :=
  Tensor (shape t) (map (fun x => smul x x) (data t)).

(** [torch.sum(t, dim=1, keepdim=True)] of a 2-d tensor: shape (n, 1) *)
Definition sum_dim1_keep (t : tensor T) : tensor T :=
  Tensor [dim t 0; 1]
    (tab1 (dim t 0) (fun i => ssum (tab1 (dim t 1) (get2 t i)))).

(** [torch.sum(t, dim=1)] of a 2-d tensor: shape (n) *)
Definition sum_dim1 (t : tensor T) : tensor T :=
  Tensor [dim t 0]
    (tab1 (dim t 0) (fun i => ssum (tab1 (dim t 1) (get2 t i)))).

(** [t.t()] *)
Definition transpose (t : tensor T) : tensor T :=
  Tensor [dim t 1; dim t 0]
    (tab2 (dim t 1) (dim t 0) (fun i j => get2 t j i)).

(** [torch.matmul(a, b)] of 2-d tensors *)
Definition matmul (a b : tensor T) : result (tensor T) :=
  if dim a 1 =? dim b 0 then
    Ok (Tensor [dim a 0; dim b 1]
          (tab2 (dim a 0) (dim b 1) (fun i j =>
             ssum (tab1 (dim a 1) (fun k => smul (get2 a i k) (get2 b k j))))))
  else Raise RuntimeError.

(** [a + b] with [a] of shape (n, 1) and [b] of shape (k): broadcast to
    (n, k). *)
Definition add_broadcast (a b : tensor T) : tensor T :=
  Tensor [dim a 0; dim b 0]
    (tab2 (dim a 0) (dim b 0) (fun i j =>
       sadd (get2 a i 0) (nth j (data b) (sconst 0%Q)))).

(** [c * t] for a constant [c] *)
Definition scale (c : Q) (t : tensor T) : tensor T :=
  Tensor (shape t) (map (fun x => smul (sconst c) x) (data t)).

(** Elementwise [a + b] and [a - b] of tensors of one shape *)
Definition tadd (a b : tensor T) : tensor T :=
  Tensor (shape a) (zip_with sadd (data a) (data b)).

Definition tsub (a b : tensor T) : tensor T :=
  Tensor (shape a) (zip_with ssub (data a) (data b)).

(** [t.detach()] *)
Definition detach (t : tensor T) : tensor T :=
  Tensor (shape t) (map sdetach (data t)).

(** Index of the first minimum of a row: a later element replaces the
    current best only when it is strictly smaller. *)
Fixpoint argmin_from (i best : nat) (bv : Q) (l : list T) : nat :=
  match l with
  | [] => best
  | x :: r =>
      if Qle_bool bv (sval x) then argmin_from (S i) best bv r
      else argmin_from (S i) i (sval x) r
  end.

Definition argmin (l : list T) : nat :=
  match l with
  | [] => 0
  | x :: r => argmin_from 1 0 (sval x) r
  end.

(** [torch.argmin(t, dim=1)] of a 2-d tensor: one index per row; a
    reduction over a dimension of size 0 is an error. *)
Definition argmin_dim1 (t : tensor T) : result (list nat) :=
  if dim t 1 =? 0 then Raise IndexError
  else Ok (tab1 (dim t 0) (fun i => argmin (tab1 (dim t 1) (get2 t i)))).

(** [torch.zeros(n, k)] *)
Definition zeros (n k : nat) : tensor T :=
  Tensor [n; k] (repeat (sconst 0%Q) (n * k)).

(** [t.scatter_(1, index, v)] with [index] of shape (n, 1): row [i] of
    [t] receives [v] at column [index[i]]. *)
Definition scatter_1 (t : tensor T) (index : list nat) (v : Q) : tensor T :=
  Tensor (shape t)
    (tab2 (dim t 0) (dim t 1) (fun i j =>
       if j =? nth i index 0 then sconst v else get2 t i j)).

(** Mean of the elements of a tensor; of no element it is 0/0. *)
Definition mean (l : list T) : loss T :=
  match length l with
  | 0 => NaN
  | S _ => Num (sdivn (ssum l) (length l))
  end.

(** [nn.functional.mse_loss(a, b)] with the default reduction *)
Definition mse_loss (a b : tensor T) : loss T :=
  mean (zip_with (fun x y => smul (ssub x y) (ssub x y)) (data a) (data b)).

Definition loss_add (a b : loss T) : loss T :=
  match a, b with
  | Num x, Num y => Num (sadd x y)
  | _, _ => NaN
  end.

Definition loss_scale (c : Q) (a : loss T) : loss T :=
  match a with
  | Num x => Num (smul (sconst c) x)
  | NaN => NaN
  end.
End Tensors.

(** ** The vector quantizer *)

Section VectorQuantizer.
Context {T : Type} {ST : Scalar T}.

(** The state of a [VQ] module: [embedding_table] is the weight of the
    [nn.Embedding], a tensor of shape (K, D). *)
Record VQ : Type := {
  num_embeddings : nat;
  embedding_dim : nat;
  embedding_table : tensor T;
  commitment_loss : Q
}.

(** What [__init__] establishes (it divides by [num_embeddings]) together
    with the construction contract of positive sizes. *)
Definition VQ_wf (self : VQ) : Prop :=
  0 < num_embeddings self /\
  0 < embedding_dim self /\
  shape (embedding_table self) = [num_embeddings self; embedding_dim self] /\
  tensor_wf (embedding_table self).

(** The local variables of [forward] that the properties speak about. *)
Record locals : Type := {
  channel_last : tensor T;        (* encoder_inputs after the permutation *)
  indexes : list nat;
  quantized_bhwc : tensor T;      (* before the straight-through step *)
  first_term : loss T;
  second_term : loss T;
  total_loss : loss T;
  quantized : tensor T
}.

Definition forward_locals (self : VQ) (encoder_inputs : tensor T)
    : result locals :=
  encoder_inputs <- permute_0231 encoder_inputs ;;
  let shape := shape encoder_inputs in
  flattened_inputs <- view_rows (embedding_dim self) encoder_inputs ;;
  let weight := embedding_table self in
  product <- matmul flattened_inputs (transpose weight) ;;
  let all_distances :=
    tsub (add_broadcast (sum_dim1_keep (pow2 flattened_inputs))
                        (sum_dim1 (pow2 weight)))
         (scale 2 product) in
  indexes <- argmin_dim1 all_distances ;;
  let encodings := zeros (length indexes) (num_embeddings self) in
  let encodings := scatter_1 encodings indexes 1 in
  selected <- matmul encodings weight ;;
  quantized_bhwc <- view shape selected ;;
  let first_term := mse_loss (detach quantized_bhwc) encoder_inputs in
  let second_term := mse_loss quantized_bhwc (detach encoder_inputs) in
  let beta := commitment_loss self in
  let loss := loss_add first_term (loss_scale beta second_term) in
  (* the source rebinds quantized_bhwc here *)
  let straight_through :=
    tadd encoder_inputs (detach (tsub quantized_bhwc encoder_inputs)) in
  quantized <- permute_0312 straight_through ;;
  Ok {| channel_last := encoder_inputs;
        indexes := indexes;
        quantized_bhwc := quantized_bhwc;
        first_term := first_term;
        second_term := second_term;
        total_loss := loss;
        quantized := quantized |}.

(** [VQ.forward]: returns [quantized, loss]. *)
Definition forward (self : VQ) (encoder_inputs : tensor T)
    : result (tensor T * loss T) :=
  l <- forward_locals self encoder_inputs ;;
  Ok (quantized l, total_loss l).
End VectorQuantizer.

Arguments VQ T : clear implicits.
Arguments locals T : clear implicits.

(** ** The masks of the autoregressive prior *)

(** A numpy index on an axis of [n] entries: negative indices count from the
    end, anything outside [-n, n) is an [IndexError]. *)
Definition np_index (n : nat) (i : Z) : result nat :=
  if ((0 <=? i) && (i <? Z.of_nat n))%Z then Ok (Z.to_nat i)
  else if ((- Z.of_nat n <=? i) && (i <? 0))%Z then Ok (Z.to_nat (i + Z.of_nat n))
  else Raise IndexError.

Fixpoint set_nth {A : Type} (i : nat) (v : A) (l : list A) : list A :=
  match l, i with
  | [], _ => []
  | _ :: r, 0 => v :: r
  | a :: r, S i' => a :: set_nth i' v r
  end.

Definition grid : Type := list (list Z).

Definition grid_get (g : grid) (i j : nat) : Z := nth j (nth i g []) 0%Z.

(** [g[i][j] = v] with indices in range *)
Definition grid_set (g : grid) (i j : nat) (v : Z) : grid :=
  set_nth i (set_nth j v (nth i g [])) g.

(** [g[y][x] = v] with numpy's indices *)
Definition grid_setitem (g : grid) (y x : Z) (v : Z) : result grid :=
  i <- np_index (length g) y ;;
  j <- np_index (length (nth i g [])) x ;;
  Ok (grid_set g i j v).

Definition conv_mask_abstract (size : nat) (current_pos : Z * Z)
    (mask_type : string) : result grid :=
  let mask_grid := repeat (repeat 0%Z size) size in
  let '(x, y) := current_pos in
  let mask_grid :=
    fold_left (fun g i =>
      fold_left (fun g j =>
        if ((Z.of_nat j <? x) || (Z.of_nat i <? y))%Z then grid_set g i j 1%Z
        else g) (seq 0 size) g) (seq 0 size) mask_grid in
  if String.eqb mask_type "B" then grid_setitem mask_grid y x 1%Z
  else grid_setitem mask_grid y x 0%Z.

(** ** The constructor of MaskedConv2d *)

(** The values the constructor handles: the size of a tensor (a tuple
    subclass, which is not callable), and the rest. *)
Inductive pyvalue : Type :=
| PySize (dims : list nat)
| PyGrid (g : grid)
| PyTensor (g : grid).

(** [v()]: none of these values is callable. *)
Definition py_call (v : pyvalue) : result (list nat) :=
  match v with
  | PySize _ | PyGrid _ | PyTensor _ => Raise TypeError
  end.

(** The part of an [nn.Conv2d] module the constructor touches: the weight's
    size, the attributes set on the instance and the registered buffers. *)
Record conv2d : Type := {
  weight_shape : list nat;
  attributes : list (string * pyvalue);
  buffers : list (string * pyvalue)
}.

Definition has_key (name : string) (l : list (string * pyvalue)) : bool :=
  existsb (fun kv => String.eqb (fst kv) name) l.

(** [self.name = v] for a value that is neither a parameter, a module nor a
    tensor: refused when [name] is a buffer, an ordinary attribute
    otherwise. *)
Definition setattr (self : conv2d) (name : string) (v : pyvalue)
    : result conv2d :=
  if has_key name (buffers self) then Raise TypeError
  else Ok {| weight_shape := weight_shape self;
             attributes := (name, v) :: attributes self;
             buffers := buffers self |}.

(** [self.register_buffer(name, v)]: refused when the instance already has
    an attribute of that name which is not a buffer. *)
Definition register_buffer (self : conv2d) (name : string) (v : pyvalue)
    : result conv2d :=
  if has_key name (attributes self) && negb (has_key name (buffers self))
  then Raise KeyError
  else Ok {| weight_shape := weight_shape self;
             attributes := attributes self;
             buffers := (name, v) :: buffers self |}.

Section MaskedConv2d.
(** [nn.Conv2d.__init__] on the arguments passed through: it builds the
    module or raises. *)
Variable args : Type.
Variable Conv2d_init : args -> result conv2d.

(** The statements of [__init__] after the size of the weight is known. *)
Definition MaskedConv2d_setup (self : conv2d) (mask_type : string)
    (size : list nat) : result conv2d :=
  match size with
  | [b; c; h; w] =>
      let centre_h := h / 2 in
      let centre_w := w / 2 in
      mask <- conv_mask_abstract h
                (Z.of_nat centre_w, Z.of_nat centre_h) mask_type ;;
      self <- setattr self "mask" (PyGrid mask) ;;
      register_buffer self "mask" (PyTensor mask)
  | _ => Raise ValueError
  end.

Definition MaskedConv2d_init (mask_type : string) (a : args)
    : result conv2d :=
  self <- Conv2d_init a ;;
  size <- py_call (PySize (weight_shape self)) ;;
  MaskedConv2d_setup self mask_type size.
End MaskedConv2d.

(** ** Notions the properties are stated with *)

Section Notions.
Context {T : Type} {ST : Scalar T}.

(** The query vector of batch entry [b] at position [(h, w)]: the channels
    of the channel-first input there.  It is row [(b * H + h) * W + w] of
    the flattened input. *)
Definition query (x : tensor T) (b h w : nat) : list T :=
  tab1 (dim x 1) (fun d => get4 x b d h w).

(** Row [k] of the codebook. *)
Definition codeword (self : VQ T) (k : nat) : list T :=
  tab1 (embedding_dim self) (get2 (embedding_table self) k).

(** The index selected for the query at [(b, h, w)] of an input with
    spatial extent [H] x [W]. *)
Definition selected_index (l : locals T) (H W b h w : nat) : nat :=
  nth ((b * H + h) * W + w) (indexes l) 0.
(** Entry [(i, k)] of the matrix of distances, written with the rows of
    the two operands. *)
Definition expanded (D : nat) (q e : nat -> T) : T :=
  ssub (sadd (ssum (tab1 D (fun d => smul (q d) (q d))))
             (ssum (tab1 D (fun d => smul (e d) (e d)))))
       (smul (sconst 2%Q) (ssum (tab1 D (fun d => smul (q d) (e d))))).

(** The distance from the query at [(b, h, w)] to row [k] of the codebook
    as [forward] computes it: |q|^2 + |e_k|^2 - 2 q.e_k, every operation
    in the arithmetic of the tensors. *)
Definition computed_distance (self : VQ T) (x : tensor T) (b h w k : nat)
    : T :=
  expanded (embedding_dim self) (fun d => get4 x b d h w)
    (get2 (embedding_table self) k).

(** [i] is the first position of [l] that holds a least value. *)
Definition first_min (l : list T) (i : nat) : Prop :=
  i < length l /\
  (forall j, j < length l ->
     (sval (nth i l (sconst 0%Q)) <= sval (nth j l (sconst 0%Q)))%Q) /\
  (forall j, j < i ->
     (sval (nth i l (sconst 0%Q)) < sval (nth j l (sconst 0%Q)))%Q).
End Notions.

(** Squared Euclidean distance. *)
Definition sqdist (q e : list Q) : Q :=
  ssum (zip_with (fun u v => (u - v) * (u - v))%Q q e).

(** A binary32 value that is a number: a zero or a finite value in
    canonical form, neither an infinity nor a NaN. *)
Definition f32_finite (x : f32) : bool :=
  match x with
  | S754_zero _ => true
  | S754_finite _ m e => bounded prec32 emax32 m e
  | _ => false
  end.

Definition f32_is_zero (x : f32) : bool :=
  match x with
  | S754_zero _ => true
  | _ => false
  end.

(** Equal as numbers ([==] on floats): the same value, or two zeros, whose
    signs may differ. *)
Definition same_number (a b : f32) : Prop :=
  a = b \/ (f32_is_zero a = true /\ f32_is_zero b = true).

(** 1.0 *)
Definition f32_one : f32 := S754_finite false 8388608 (-23).


(** The derivative carried by a loss term, when it is a number. *)
Definition loss_tan (l : loss dual) : option Q :=
  match l with
  | Num v => Some (tan v)
  | NaN => None
  end.

(** No derivative along the chosen direction. *)
Definition tan0 (a : dual) : Prop := (tan a == 0)%Q.

Definition zero_tangent (l : list dual) : Prop := Forall tan0 l.

Definition loss_tan0 (l : loss dual) : Prop :=
  match l with
  | Num v => tan0 v
  | NaN => True
  end.

(** A grid of [n] rows of [m] entries. *)
Definition grid_dims (n m : nat) (g : grid) : Prop :=
  length g = n /\ Forall (fun r => length r = m) g.

(** ** Concrete states and inputs *)

(** The codebook of the scenario of the specification: K = 4, D = 2. *)
Definition example_codebook : tensor Q :=
  Tensor [4; 2] [0; 0; 10; 10; -10; 10; 10; -10]%Q.

Definition example_vq : VQ Q :=
  {| num_embeddings := 4;
     embedding_dim := 2;
     embedding_table := example_codebook;
     commitment_loss := (1 # 4)%Q |}.

(** One query vector [1, 1]: B = H = W = 1. *)
Definition example_input : tensor Q := Tensor [1; 2; 1; 1] [1; 1]%Q.

(** Channel depth 4 although the embedding dimension is 2. *)
Definition example_wide_input : tensor Q :=
  Tensor [1; 4; 1; 1] [1; 9; 1; 8]%Q.

(** Channel depth 3: the element count is not a multiple of 2. *)
Definition example_odd_input : tensor Q := Tensor [1; 3; 1; 1] [1; 9; 1]%Q.

(** An empty batch. *)
Definition example_empty_input : tensor Q := Tensor [0; 2; 1; 1] [].

(** A tensor with the derivative of each element along a direction. *)
Definition with_tangent (t : tensor Q) (direction : list Q) : tensor dual :=
  Tensor (shape t) (zip_with Dual (data t) direction).

Definition vq_with_tangent (self : VQ Q) (direction : list Q) : VQ dual :=
  {| num_embeddings := num_embeddings self;
     embedding_dim := embedding_dim self;
     embedding_table := with_tangent (embedding_table self) direction;
     commitment_loss := commitment_loss self |}.

(** The direction of the first element of the encoder input, and the one of
    the first element of the codebook. *)
Definition along_input : VQ dual * tensor dual :=
  (vq_with_tangent example_vq [0; 0; 0; 0; 0; 0; 0; 0]%Q,
   with_tangent example_input [1; 0]%Q).

Definition along_codebook : VQ dual * tensor dual :=
  (vq_with_tangent example_vq [1; 0; 0; 0; 0; 0; 0; 0]%Q,
   with_tangent example_input [0; 0]%Q).

(** The derivatives of the two loss terms along a direction. *)
Definition loss_term_tangents (dir : VQ dual * tensor dual)
    : option (Q * Q) :=
  match forward_locals (fst dir) (snd dir) with
  | Ok l =>
      match loss_tan (first_term l), loss_tan (second_term l) with
      | Some t1, Some t2 => Some (t1, t2)
      | _, _ => None
      end
  | Raise _ => None
  end.

(** A tensor and a quantizer of rationals, each element rounded to
    float32. *)
Definition to_float32 (t : tensor Q) : tensor f32 :=
  Tensor (shape t) (map f32_of_Q (data t)).

Definition vq_to_float32 (self : VQ Q) : VQ f32 :=
  {| num_embeddings := num_embeddings self;
     embedding_dim := embedding_dim self;
     embedding_table := to_float32 (embedding_table self);
     commitment_loss := commitment_loss self |}.

(** Two codewords one apart, 4096 = 8388608 * 2^-11 and
    4097 = 8390656 * 2^-11, and the query 4097: K = 2, D = 1, float32. *)
Definition close_codebook : tensor f32 :=
  Tensor [2; 1]
    [S754_finite false 8388608 (-11); S754_finite false 8390656 (-11)].

Definition close_vq : VQ f32 :=
  {| num_embeddings := 2;
     embedding_dim := 1;
     embedding_table := close_codebook;
     commitment_loss := (1 # 4)%Q |}.

Definition close_input : tensor f32 :=
  Tensor [1; 1; 1; 1] [S754_finite false 8390656 (-11)].

(** One codeword, the float32 nearest to 0.001 (8589935 * 2^-33), and the
    input nearest to 0.7 (11744051 * 2^-24): K = 1, D = 1. *)
Definition small_codebook : tensor f32 :=
  Tensor [1; 1] [S754_finite false 8589935 (-33)].

Definition small_vq : VQ f32 :=
  {| num_embeddings := 1;
     embedding_dim := 1;
     embedding_table := small_codebook;
     commitment_loss := (1 # 4)%Q |}.

Definition small_input : tensor f32 :=
  Tensor [1; 1; 1; 1] [S754_finite false 11744051 (-24)].

(** ** The constructor of the quantizer *)

Inductive arith_exn : Type := ZeroDivisionError.

(** [a / b] on Python numbers. *)
Definition py_div (a b : Q) : Q + arith_exn :=
  if Qeq_bool b 0 then inr ZeroDivisionError else inl (a / b)%Q.

Section VQInit.
(** The draws [nn.Embedding] initialises its weight with, and the draws
    from the unit interval behind [uniform_]. *)
Variable normal : nat -> Q.
Variable rand : nat -> Q.

(** The weight of [nn.Embedding(num_embeddings, embedding_dim)]. *)
Definition Embedding (num_embeddings embedding_dim : nat) : tensor Q :=
  Tensor [num_embeddings; embedding_dim]
    (tab1 (num_embeddings * embedding_dim) normal).

(** [t.uniform_(lo, hi)]: every element is replaced, in place, by a draw
    from the interval from [lo] to [hi].  The tensor is a float32 one: the
    bounds reach it rounded to float32 and so does each draw, which can
    therefore lie just outside the interval from [lo] to [hi] (with
    [lo = -1/3] a draw of 0 gives -11184811/33554432, below -1/3). *)
Definition uniform_ (t : tensor Q) (lo hi : Q) : tensor Q :=
  let lo := round_float32 lo in
  let hi := round_float32 hi in
  Tensor (shape t)
    (tab1 (length (data t))
       (fun i => round_float32 (lo + (hi - lo) * rand i)%Q)).

(** [VQ.__init__] *)
Definition VQ_init (num_embeddings embedding_dim : nat) (commitment_loss : Q)
    : VQ Q + arith_exn :=
  let embedding_table := Embedding num_embeddings embedding_dim in
  match py_div (-1) (inject_Z (Z.of_nat num_embeddings)) with
  | inr e => inr e
  | inl lo =>
      match py_div 1 (inject_Z (Z.of_nat num_embeddings)) with
      | inr e => inr e
      | inl hi =>
          inl {| num_embeddings := num_embeddings;
                 embedding_dim := embedding_dim;
                 embedding_table := uniform_ embedding_table lo hi;
                 commitment_loss := commitment_loss |}
      end
  end.
End VQInit.

(** ** The shapes through the encoder and the decoder *)

(** The layers of the two [nn.Sequential] stacks. *)
Inductive layer : Type :=
| Conv2d (in_channels out_channels kernel_size stride padding : nat)
| ConvTranspose2d (in_channels out_channels kernel_size stride padding : nat)
| BatchNorm2d (num_features : nat)
| LeakyReLU (negative_slope : Q)
| Sigmoid
| Tanh.

(** Batch, channels, height, width. *)
Definition shape4 : Type := (nat * nat * nat * nat)%type.

(** The shape a layer gives to an input of shape [s], or the error it
    raises: the channel depth has to be the one the layer was built for, a
    convolution needs the padded input to hold the kernel, and batch
    normalisation in training mode needs more than one value per channel.
    Dilation is 1 and there is no output padding, as in the source. *)
Definition layer_shape (training : bool) (l : layer) (s : shape4)
    : result shape4 :=
  let '(b, c, h, w) := s in
  match l with
  | Conv2d cin cout k st p =>
      if (c =? cin) && (k <=? h + 2 * p) && (k <=? w + 2 * p)
      then Ok (b, cout, (h + 2 * p - k) / st + 1, (w + 2 * p - k) / st + 1)
      else Raise RuntimeError
  | ConvTranspose2d cin cout k st p =>
      if (c =? cin) && (1 <=? h) && (1 <=? w)
         && (2 * p <? (h - 1) * st + k) && (2 * p <? (w - 1) * st + k)
      then Ok (b, cout, (h - 1) * st + k - 2 * p, (w - 1) * st + k - 2 * p)
      else Raise RuntimeError
  | BatchNorm2d n =>
      if negb (c =? n) then Raise RuntimeError
      else if training && (b * h * w =? 1) then Raise ValueError
      else Ok s
  | LeakyReLU _ | Sigmoid | Tanh => Ok s
  end.

(** [nn.Sequential]: the layers in order. *)
Fixpoint sequential_shape (training : bool) (layers : list layer)
    (s : shape4) : result shape4 :=
  match layers with
  | [] => Ok s
  | l :: rest =>
      s' <- layer_shape training l s ;;
      sequential_shape training rest s'
  end.

Definition latent_space : nat := 256.

Definition Encoder : list layer :=
  [ Conv2d 3 64 4 2 1; BatchNorm2d 64; LeakyReLU (1 # 10);
    Conv2d 64 128 4 2 1; BatchNorm2d 128; LeakyReLU (1 # 10);
    Conv2d 128 latent_space 4 2 1; Sigmoid ].

Definition Decoder : list layer :=
  [ ConvTranspose2d latent_space 128 4 2 1; BatchNorm2d 128;
    LeakyReLU (1 # 10);
    ConvTranspose2d 128 64 4 2 1; BatchNorm2d 64; LeakyReLU (1 # 10);
    ConvTranspose2d 64 3 4 2 1; Tanh ].

(** A network [f] whose values are not modelled: on a tensor of shape
    (b, c, h, w) it returns a tensor of the shape its layers give, or
    raises as they do. *)
Definition follows_shapes (training : bool) (layers : list layer)
    (f : tensor Q -> result (tensor Q)) : Prop :=
  forall x b c h w,
    shape x = [b; c; h; w] -> tensor_wf x ->
    match sequential_shape training layers (b, c, h, w) with
    | Ok (b', c', h', w') =>
        exists y, f x = Ok y /\ shape y = [b'; c'; h'; w'] /\ tensor_wf y
    | Raise e => f x = Raise e
    end.

(** A network of the given layers that returns zeros. *)
Definition zero_network (training : bool) (layers : list layer)
    (x : tensor Q) : result (tensor Q) :=
  match shape x with
  | [b; c; h; w] =>
      s <- sequential_shape training layers (b, c, h, w) ;;
      let '(b', c', h', w') := s in
      Ok (Tensor [b'; c'; h'; w'] (repeat 0%Q (b' * c' * h' * w')))
  | _ => Raise RuntimeError
  end.

Section VQVAE.
(** [self.encoder] and [self.decoder] as functions on tensors. *)
Variable encoder decoder : tensor Q -> result (tensor Q).

(** [VQVAE.forward] *)
Definition VQVAE_forward (vq : VQ Q) (inputs : tensor Q)
    : result (tensor Q * loss Q) :=
  outputs <- encoder inputs ;;
  r <- forward vq outputs ;;
  let '(quantized_outputs, loss) := r in
  decoder_outputs <- decoder quantized_outputs ;;
  Ok (decoder_outputs, loss).
End VQVAE.



Definition example_small_image : tensor Q :=
  Tensor [1; 3; 4; 8] (repeat 0%Q 96).

Definition constant_draws : nat -> Q := fun _ => 0%Q.

Definition example_vqvae_vq : VQ Q :=
  {| num_embeddings := 512;
     embedding_dim := 256;
     embedding_table :=
       uniform_ constant_draws (Embedding constant_draws 512 256)
         (-1 / inject_Z (Z.of_nat 512)) (1 / inject_Z (Z.of_nat 512));
     commitment_loss := (1 # 4)%Q |}.

(** ** The trainer of the graph network *)

(** What [ModelTrainer.__init__] leaves on the instance, as far as the
    plots need it. *)
Record ModelTrainer : Type := {
  classes : nat;
  epochs : nat;
  trainAcc : list Q;
  trainLoss : list Q;
  valAcc : list Q;
  valLoss : list Q
}.

(** [plt.plot(x, y, ...)]: the two sequences must have one length. *)
Definition plt_plot (x y : list Q) : result unit :=
  if length x =? length y then Ok tt else Raise ValueError.

(** [list(range(1, n + 1))] *)
Definition epoch_range (n : nat) : list Q :=
  map (fun k => inject_Z (Z.of_nat k)) (seq 1 n).

Section Trainer.
(** The collaborators that are not in this repository's sources: loading
    the data and building the model, which give the number of classes or
    raise; compiling and fitting the model; printing its summary;
    predicting and plotting the embedding. *)
Variable load_and_build : string -> result nat.
Variable compile_and_fit : ModelTrainer -> result unit.
Variable summary : ModelTrainer -> result unit.
Variable predict_and_plot : ModelTrainer -> result unit.

(** Calling [ModelTrainer] on positional arguments:
    [__init__(self, checkpointPath)] takes one argument besides [self]. *)
Definition ModelTrainer_init (args : list string) : result ModelTrainer :=
  match args with
  | [checkpointPath] =>
      n <- load_and_build checkpointPath ;;
      Ok {| classes := n;
            epochs := 350;
            trainAcc := [];
            trainLoss := [];
            valAcc := [];
            valLoss := [] |}
  | _ => Raise TypeError
  end.

Definition generateModel (self : ModelTrainer) : result unit :=
  compile_and_fit self.

Definition getSummary (self : ModelTrainer) : result unit :=
  summary self.

Definition lossPlots (self : ModelTrainer) : result unit :=
  let epochRange := epoch_range (epochs self) in
  _ <- plt_plot epochRange (trainAcc self) ;;
  _ <- plt_plot epochRange (valAcc self) ;;
  _ <- plt_plot epochRange (trainLoss self) ;;
  _ <- plt_plot epochRange (valLoss self) ;;
  Ok tt.

(** [main()]; its last two statements, the predictions and their plot, are
    left to [predict_and_plot]. *)
Definition main : result unit :=
  model <- ModelTrainer_init ["facebook.npz"; "training/cp.ckpt"]%string ;;
  _ <- generateModel model ;;
  _ <- getSummary model ;;
  _ <- lossPlots model ;;
  predict_and_plot model.
End Trainer.

(** ** Facts about tabulated lists *)

Unset Implicit Arguments.

Lemma flat_index_lt (n m i j : nat) : i < n -> j < m -> i * m + j < n * m.
Proof.
  intros Hi Hj.
  apply Nat.lt_le_trans with (S i * m); [simpl; lia|].
  apply Nat.mul_le_mono_r. lia.
Qed.

Lemma length_tab1 {A : Type} (n : nat) (f : nat -> A) : length (tab1 n f) = n.
Proof. unfold tab1. now rewrite length_map, length_seq. Qed.

Lemma nth_tab1 {A : Type} (n : nat) (f : nat -> A) (i : nat) (d : A) :
  i < n -> nth i (tab1 n f) d = f i.
Proof.
  intros Hi. unfold tab1.
  rewrite (nth_indep _ d (f 0)) by now rewrite length_map, length_seq.
  rewrite map_nth. now rewrite seq_nth.
Qed.

Lemma tab1_ext {A : Type} (n : nat) (f g : nat -> A) :
  (forall i, i < n -> f i = g i) -> tab1 n f = tab1 n g.
Proof.
  intros E. unfold tab1. apply map_ext_in. intros i Hi.
  apply in_seq in Hi. apply E. lia.
Qed.

Lemma length_concat_uniform {A : Type} (m : nat) (ll : list (list A)) :
  Forall (fun r => length r = m) ll -> length (concat ll) = length ll * m.
Proof.
  induction 1 as [|r ll Hr _ IH]; simpl; [reflexivity|].
  rewrite length_app, IH, Hr. reflexivity.
Qed.

Lemma nth_concat_uniform {A : Type} (m : nat) (ll : list (list A)) (i j : nat) (d : A) :
  Forall (fun r => length r = m) ll -> j < m ->
  nth (i * m + j) (concat ll) d = nth j (nth i ll []) d.
Proof.
  intros Hall Hj. revert i.
  induction Hall as [|r ll Hr _ IH]; intros i.
  - simpl. destruct (i * m + j); destruct i; destruct j; reflexivity.
  - destruct i as [|i]; simpl.
    + apply app_nth1. lia.
    + rewrite app_nth2 by lia.
      replace (m + i * m + j - length r) with (i * m + j) by lia.
      apply IH.
Qed.

Lemma Forall_tab1 {A : Type} (P : A -> Prop) (n : nat) (f : nat -> A) :
  (forall i, i < n -> P (f i)) -> Forall P (tab1 n f).
Proof.
  intros E. apply Forall_forall. intros a Ha.
  unfold tab1 in Ha. apply in_map_iff in Ha as (i & <- & Hi).
  apply in_seq in Hi. apply E. lia.
Qed.

Lemma length_tab2 {A : Type} (n m : nat) (f : nat -> nat -> A) :
  length (tab2 n m f) = n * m.
Proof.
  unfold tab2. rewrite (length_concat_uniform m).
  - now rewrite length_tab1.
  - apply Forall_tab1. intros. apply length_tab1.
Qed.

Lemma nth_tab2 {A : Type} (n m : nat) (f : nat -> nat -> A) (i j : nat) (d : A) :
  i < n -> j < m -> nth (i * m + j) (tab2 n m f) d = f i j.
Proof.
  intros Hi Hj. unfold tab2.
  rewrite nth_concat_uniform; [|apply Forall_tab1; intros; apply length_tab1|assumption].
  rewrite nth_tab1 by assumption. now apply nth_tab1.
Qed.

Lemma length_tab4 {A : Type} (n0 n1 n2 n3 : nat) (f : nat -> nat -> nat -> nat -> A) :
  length (tab4 n0 n1 n2 n3 f) = n0 * n1 * n2 * n3.
Proof.
  unfold tab4.
  rewrite (length_concat_uniform (n1 * n2 * n3)).
  - now rewrite length_tab1, !Nat.mul_assoc.
  - apply Forall_tab1. intros i0 _.
    rewrite (length_concat_uniform (n2 * n3)).
    + now rewrite length_tab1, !Nat.mul_assoc.
    + apply Forall_tab1. intros i1 _. apply (length_tab2 n2 n3).
Qed.

Lemma nth_tab4 {A : Type} (n0 n1 n2 n3 : nat) (f : nat -> nat -> nat -> nat -> A)
    (i0 i1 i2 i3 : nat) (d : A) :
  i0 < n0 -> i1 < n1 -> i2 < n2 -> i3 < n3 ->
  nth (((i0 * n1 + i1) * n2 + i2) * n3 + i3) (tab4 n0 n1 n2 n3 f) d
  = f i0 i1 i2 i3.
Proof.
  intros H0 H1 H2 H3. unfold tab4.
  replace (((i0 * n1 + i1) * n2 + i2) * n3 + i3)
    with (i0 * (n1 * n2 * n3) + ((i1 * n2 + i2) * n3 + i3)) by lia.
  rewrite nth_concat_uniform.
  - rewrite nth_tab1 by assumption.
    replace ((i1 * n2 + i2) * n3 + i3)
      with (i1 * (n2 * n3) + (i2 * n3 + i3)) by lia.
    rewrite nth_concat_uniform.
    + rewrite nth_tab1 by assumption. now apply (nth_tab2 n2 n3).
    + apply Forall_tab1. intros. apply (length_tab2 n2 n3).
    + now apply flat_index_lt.
  - apply Forall_tab1. intros i _.
    rewrite (length_concat_uniform (n2 * n3)).
    + now rewrite length_tab1, !Nat.mul_assoc.
    + apply Forall_tab1. intros. apply (length_tab2 n2 n3).
  - apply flat_index_lt; [now apply flat_index_lt|assumption].
Qed.

Section ZipWith.
Context {A B C : Type}.

Lemma length_zip_with (f : A -> B -> C) (l : list A) (r : list B) :
  length (zip_with f l r) = Nat.min (length l) (length r).
Proof.
  revert r. induction l as [|a l IH]; intros [|b r]; simpl; auto.
Qed.

Lemma nth_zip_with (f : A -> B -> C) (l : list A) (r : list B) (i : nat)
    (da : A) (db : B) (dc : C) :
  i < length l -> i < length r ->
  nth i (zip_with f l r) dc = f (nth i l da) (nth i r db).
Proof.
  revert r i. induction l as [|a l IH]; intros [|b r] [|i]; simpl;
    try lia; auto.
  intros. apply IH; lia.
Qed.
End ZipWith.

(** ** The operations on tensors, when they succeed and when they raise *)

Lemma numel4 (a b c d : nat) : numel [a; b; c; d] = a * b * c * d.
Proof. unfold numel. simpl. lia. Qed.

Lemma numel2 (a b : nat) : numel [a; b] = a * b.
Proof. unfold numel. simpl. lia. Qed.

Lemma bind_Ok {A B : Type} (a : A) (k : A -> result B) :
  bind (Ok a) k = k a.
Proof. reflexivity. Qed.

Section Operations.
Context {T : Type} {ST : Scalar T}.

Lemma permute_0231_ok (t : tensor T) (b c h w : nat) :
  shape t = [b; c; h; w] ->
  permute_0231 t
  = Ok (Tensor [b; h; w; c]
          (tab4 b h w c (fun ib ih iw ic => get4 t ib ic ih iw))).
Proof. intros E. unfold permute_0231. now rewrite E. Qed.

Lemma permute_0312_ok (t : tensor T) (b h w c : nat) :
  shape t = [b; h; w; c] ->
  permute_0312 t
  = Ok (Tensor [b; c; h; w]
          (tab4 b c h w (fun ib ic ih iw => get4 t ib ih iw ic))).
Proof. intros E. unfold permute_0312. now rewrite E. Qed.

Lemma view_rows_ok (d : nat) (t : tensor T) :
  d <> 0 -> numel (shape t) mod d = 0 ->
  view_rows d t = Ok (Tensor [numel (shape t) / d; d] (data t)).
Proof.
  intros Hd Hm. unfold view_rows.
  destruct (Nat.eqb_spec d 0); [contradiction|].
  now rewrite Hm.
Qed.

Lemma view_rows_raise (d : nat) (t : tensor T) :
  numel (shape t) mod d <> 0 -> view_rows d t = Raise RuntimeError.
Proof.
  intros Hm. unfold view_rows.
  destruct (Nat.eqb_spec d 0); [reflexivity|].
  destruct (Nat.eqb_spec (numel (shape t) mod d) 0); [contradiction|reflexivity].
Qed.

Lemma view_ok (s : list nat) (t : tensor T) :
  numel s = numel (shape t) -> view s t = Ok (Tensor s (data t)).
Proof. intros E. unfold view. now rewrite E, Nat.eqb_refl. Qed.

Lemma matmul_ok (a b : tensor T) :
  dim a 1 = dim b 0 ->
  matmul a b
  = Ok (Tensor [dim a 0; dim b 1]
          (tab2 (dim a 0) (dim b 1) (fun i j =>
             ssum (tab1 (dim a 1) (fun k => smul (get2 a i k) (get2 b k j)))))).
Proof. intros E. unfold matmul. now rewrite E, Nat.eqb_refl. Qed.

Lemma argmin_dim1_ok (t : tensor T) :
  dim t 1 <> 0 ->
  argmin_dim1 t
  = Ok (tab1 (dim t 0) (fun i => argmin (tab1 (dim t 1) (get2 t i)))).
Proof.
  intros Hk. unfold argmin_dim1.
  destruct (Nat.eqb_spec (dim t 1) 0); [contradiction|reflexivity].
Qed.

Lemma forward_locals_raise (self : VQ T) (x : tensor T) (B C H W : nat) :
  shape x = [B; C; H; W] ->
  (B * H * W * C) mod embedding_dim self <> 0 ->
  forward_locals self x = Raise RuntimeError.
Proof.
  intros Hx Hmod. unfold forward_locals.
  rewrite (permute_0231_ok x B C H W Hx), bind_Ok.
  rewrite view_rows_raise; [reflexivity|].
  cbn [shape]. now rewrite numel4.
Qed.

(** The run of [forward] on a 4-d input whose element count is a multiple
    of the embedding dimension: every step succeeds, and the local
    variables are the ones listed. *)
Lemma forward_locals_run (self : VQ T) (x : tensor T) (B C H W : nat) :
  VQ_wf self ->
  shape x = [B; C; H; W] ->
  (B * H * W * C) mod embedding_dim self = 0 ->
  let D := embedding_dim self in
  let K := num_embeddings self in
  let N := (B * H * W * C) / D in
  let weight := embedding_table self in
  exists e f p ad idx enc sel qb st q,
    e = Tensor [B; H; W; C]
          (tab4 B H W C (fun ib ih iw ic => get4 x ib ic ih iw)) /\
    f = Tensor [N; D] (data e) /\
    p = Tensor [N; K]
          (tab2 N K (fun i j =>
             ssum (tab1 D (fun k =>
               smul (get2 f i k) (get2 (transpose weight) k j))))) /\
    ad = tsub (add_broadcast (sum_dim1_keep (pow2 f))
                             (sum_dim1 (pow2 weight)))
              (scale 2 p) /\
    idx = tab1 N (fun i => argmin (tab1 K (get2 ad i))) /\
    enc = scatter_1 (zeros N K) idx 1 /\
    sel = Tensor [N; D]
            (tab2 N D (fun i j =>
               ssum (tab1 K (fun k =>
                 smul (get2 enc i k) (get2 weight k j))))) /\
    qb = Tensor [B; H; W; C] (data sel) /\
    st = tadd e (detach (tsub qb e)) /\
    q = Tensor [B; C; H; W]
          (tab4 B C H W (fun ib ic ih iw => get4 st ib ih iw ic)) /\
    forward_locals self x
    = Ok {| channel_last := e;
            indexes := idx;
            quantized_bhwc := qb;
            first_term := mse_loss (detach qb) e;
            second_term := mse_loss qb (detach e);
            total_loss :=
              loss_add (mse_loss (detach qb) e)
                (loss_scale (commitment_loss self)
                   (mse_loss qb (detach e)));
            quantized := q |}.
Proof.
  intros (HK & HD & Hw & _) Hx Hmod D K N weight.
  do 10 eexists.
  repeat (split; [reflexivity|]).
  destruct self as [K' D' [ws wd] beta], x as [xs xd].
  cbn [num_embeddings embedding_dim embedding_table shape commitment_loss]
    in *.
  subst ws xs D K weight.
  unfold forward_locals.
  rewrite (permute_0231_ok (Tensor [B; C; H; W] xd) B C H W eq_refl), bind_Ok.
  rewrite view_rows_ok; [|cbn; lia|now cbn [shape]; rewrite numel4].
  rewrite bind_Ok. cbn [shape data]. rewrite numel4.
  rewrite matmul_ok by reflexivity.
  rewrite bind_Ok.
  rewrite argmin_dim1_ok by (cbn; lia).
  rewrite bind_Ok, length_tab1.
  rewrite matmul_ok by reflexivity.
  rewrite bind_Ok.
  rewrite view_ok.
  2:{ change (numel [B; H; W; C] = numel [B * H * W * C / D'; D']).
      rewrite numel4, numel2.
      apply Nat.Div0.div_exact in Hmod. lia. }
  rewrite bind_Ok.
  rewrite (permute_0312_ok _ B H W C) by reflexivity.
  rewrite bind_Ok. reflexivity.
Qed.
End Operations.

(** ** Entries of the tensors the operations build *)

Section Entries.
Context {T : Type} {ST : Scalar T}.

Lemma nth_map_in {A B : Type} (g : A -> B) (l : list A) (i : nat)
    (da : A) (db : B) :
  i < length l -> nth i (map g l) db = g (nth i l da).
Proof.
  intros Hi. rewrite (nth_indep _ db (g da)) by now rewrite length_map.
  apply map_nth.
Qed.

Lemma get2_Tensor (n m : nat) (l : list T) (i j : nat) :
  get2 (Tensor [n; m] l) i j = nth (i * m + j) l (sconst 0%Q).
Proof. reflexivity. Qed.

Lemma get2_tab2 (n m : nat) (F : nat -> nat -> T) (i j : nat) :
  i < n -> j < m -> get2 (Tensor [n; m] (tab2 n m F)) i j = F i j.
Proof. intros. rewrite get2_Tensor. now apply nth_tab2. Qed.

Lemma get4_Tensor (n0 n1 n2 n3 : nat) (l : list T) (i0 i1 i2 i3 : nat) :
  get4 (Tensor [n0; n1; n2; n3] l) i0 i1 i2 i3
  = nth (((i0 * n1 + i1) * n2 + i2) * n3 + i3) l (sconst 0%Q).
Proof. reflexivity. Qed.

Lemma get4_tab4 (n0 n1 n2 n3 : nat) (F : nat -> nat -> nat -> nat -> T)
    (i0 i1 i2 i3 : nat) :
  i0 < n0 -> i1 < n1 -> i2 < n2 -> i3 < n3 ->
  get4 (Tensor [n0; n1; n2; n3] (tab4 n0 n1 n2 n3 F)) i0 i1 i2 i3
  = F i0 i1 i2 i3.
Proof. intros. rewrite get4_Tensor. now apply nth_tab4. Qed.

Lemma get2_pow2 (n m : nat) (l : list T) (i j : nat) :
  length l = n * m -> i < n -> j < m ->
  get2 (pow2 (Tensor [n; m] l)) i j
  = smul (get2 (Tensor [n; m] l) i j) (get2 (Tensor [n; m] l) i j).
Proof.
  intros Hl Hi Hj. unfold pow2. cbn [shape data]. rewrite !get2_Tensor.
  apply (nth_map_in (fun x => smul x x)).
  rewrite Hl. now apply flat_index_lt.
Qed.

Lemma get2_transpose (n m : nat) (l : list T) (i j : nat) :
  i < m -> j < n ->
  get2 (transpose (Tensor [n; m] l)) i j = get2 (Tensor [n; m] l) j i.
Proof.
  intros Hi Hj. unfold transpose, dim. cbn [shape nth].
  now apply (get2_tab2 m n (fun a b => get2 (Tensor [n; m] l) b a)).
Qed.

Lemma get2_all_distances (N K D : nat) (fd wd : list T) (i k : nat) :
  length fd = N * D -> length wd = K * D -> i < N -> k < K ->
  let f := Tensor [N; D] fd in
  let w := Tensor [K; D] wd in
  let p := Tensor [N; K]
             (tab2 N K (fun i j =>
                ssum (tab1 D (fun k =>
                  smul (get2 f i k) (get2 (transpose w) k j))))) in
  get2 (tsub (add_broadcast (sum_dim1_keep (pow2 f)) (sum_dim1 (pow2 w)))
             (scale 2 p)) i k
  = expanded D (get2 f i) (get2 w k).
Proof.
  intros Hf Hw Hi Hk f w p. subst p.
  unfold tsub, add_broadcast, sum_dim1_keep, sum_dim1, scale, dim.
  cbn [shape data nth pow2]. rewrite get2_Tensor.
  assert (Hik : i * K + k < N * K) by now apply flat_index_lt.
  rewrite (nth_zip_with _ _ _ _ (sconst 0%Q) (sconst 0%Q))
    by (rewrite ?length_map, length_tab2; assumption).
  rewrite nth_tab2 by assumption.
  rewrite (nth_map_in _ _ _ (sconst 0%Q)) by now rewrite length_tab2.
  rewrite nth_tab2 by assumption.
  rewrite get2_Tensor, Nat.mul_1_r, Nat.add_0_r.
  rewrite !nth_tab1 by assumption.
  unfold expanded. f_equal; [f_equal|f_equal]; f_equal; apply tab1_ext;
    intros d Hd.
  - now apply get2_pow2.
  - now apply get2_pow2.
  - f_equal. now apply get2_transpose.
Qed.

Lemma get2_encodings (N K : nat) (idx : list nat) (i k : nat) :
  i < N -> k < K ->
  get2 (scatter_1 (zeros N K) idx 1) i k
  = if k =? nth i idx 0 then sconst 1%Q else sconst 0%Q.
Proof.
  intros Hi Hk. unfold scatter_1, zeros, dim. cbn [shape nth].
  rewrite get2_tab2 by assumption.
  destruct (k =? nth i idx 0); [reflexivity|].
  rewrite get2_Tensor. apply nth_repeat.
Qed.
End Entries.

(** ** The first minimum of a row *)

Section FirstMinimum.
Context {T : Type} {ST : Scalar T}.

Lemma first_min_snoc_keep (pre : list T) (best : nat) (x : T) :
  first_min pre best ->
  Qle_bool (sval (nth best pre (sconst 0%Q))) (sval x) = true ->
  first_min (pre ++ [x]) best.
Proof.
  intros (Hb & Hle & Hlt) E. repeat split.
  - rewrite length_app. simpl. lia.
  - intros j Hj. rewrite length_app in Hj. simpl in Hj.
    rewrite (app_nth1 pre [x] _ Hb).
    destruct (Nat.eq_dec j (length pre)) as [->|Hne].
    + rewrite app_nth2, Nat.sub_diag by lia. simpl.
      now apply Qle_bool_iff.
    + rewrite app_nth1 by lia. apply Hle. lia.
  - intros j Hj. rewrite !app_nth1 by lia. now apply Hlt.
Qed.

Lemma first_min_snoc_new (pre : list T) (best : nat) (x : T) :
  first_min pre best ->
  Qle_bool (sval (nth best pre (sconst 0%Q))) (sval x) = false ->
  first_min (pre ++ [x]) (length pre).
Proof.
  intros (Hb & Hle & Hlt) E.
  assert (Hx : (sval x < sval (nth best pre (sconst 0%Q)))%Q).
  { apply Qnot_le_lt. intros Hc. apply Qle_bool_iff in Hc. congruence. }
  assert (Hn : nth (length pre) (pre ++ [x]) (sconst 0%Q) = x).
  { rewrite app_nth2, Nat.sub_diag by lia. reflexivity. }
  repeat split.
  - rewrite length_app. simpl. lia.
  - intros j Hj. rewrite length_app in Hj. simpl in Hj. rewrite Hn.
    destruct (Nat.eq_dec j (length pre)) as [->|Hne].
    + rewrite Hn. apply Qle_refl.
    + rewrite app_nth1 by lia. apply Qlt_le_weak.
      apply Qlt_le_trans with (1 := Hx). apply Hle. lia.
  - intros j Hj. rewrite Hn, app_nth1 by lia.
    apply Qlt_le_trans with (1 := Hx). apply Hle. lia.
Qed.

Lemma argmin_from_spec (r pre : list T) (best : nat) :
  first_min pre best ->
  first_min (pre ++ r)
    (argmin_from (length pre) best (sval (nth best pre (sconst 0%Q))) r).
Proof.
  revert pre best. induction r as [|x r IH]; intros pre best Hm.
  - rewrite app_nil_r. exact Hm.
  - simpl.
    replace (pre ++ x :: r) with ((pre ++ [x]) ++ r)
      by (rewrite <- app_assoc; reflexivity).
    replace (S (length pre)) with (length (pre ++ [x]))
      by (rewrite length_app; simpl; lia).
    destruct (Qle_bool (sval (nth best pre (sconst 0%Q))) (sval x)) eqn:E.
    + replace (nth best pre (sconst 0%Q))
        with (nth best (pre ++ [x]) (sconst 0%Q))
        by (apply app_nth1; apply Hm).
      apply IH. now apply first_min_snoc_keep.
    + replace (sval x)
        with (sval (nth (length pre) (pre ++ [x]) (sconst 0%Q)))
        by (rewrite app_nth2, Nat.sub_diag by lia; reflexivity).
      apply IH. now apply first_min_snoc_new with best.
Qed.

Lemma argmin_spec (l : list T) : l <> [] -> first_min l (argmin l).
Proof.
  destruct l as [|x r]; [congruence|]. intros _.
  apply (argmin_from_spec r [x] 0).
  repeat split; simpl; try lia.
  intros [|j] Hj; [apply Qle_refl|lia].
Qed.

(** On tabulated rows. *)
Lemma argmin_tab1 (K : nat) (g : nat -> T) :
  0 < K ->
  let i := argmin (tab1 K g) in
  i < K /\
  (forall k, k < K -> (sval (g i) <= sval (g k))%Q) /\
  (forall k, k < i -> (sval (g i) < sval (g k))%Q).
Proof.
  intros HK i.
  destruct (argmin_spec (tab1 K g)) as (Hi & Hle & Hlt).
  { intros E. apply (f_equal (@length T)) in E.
    rewrite length_tab1 in E. simpl in E. lia. }
  fold i in Hi, Hle, Hlt. rewrite length_tab1 in Hi, Hle.
  split; [assumption|]. split.
  - intros k Hk. specialize (Hle k Hk).
    now rewrite !nth_tab1 in Hle by assumption.
  - intros k Hk. specialize (Hlt k Hk).
    now rewrite !nth_tab1 in Hlt by lia.
Qed.
End FirstMinimum.

(** ** The index selected *)

Lemma zip_with_map {A B C I : Type} (h : A -> B -> C) (q : I -> A)
    (e : I -> B) (l : list I) :
  zip_with h (map q l) (map e l) = map (fun d => h (q d) (e d)) l.
Proof. induction l as [|i l IH]; simpl; [reflexivity|now rewrite IH]. Qed.

(** The expansion |q|^2 + |e|^2 - 2 q.e is the squared distance. *)
Lemma expanded_sqdist (D : nat) (q e : nat -> Q) :
  (expanded D q e == sqdist (tab1 D q) (tab1 D e))%Q.
Proof.
  unfold expanded, sqdist, tab1. rewrite zip_with_map.
  cbn [sadd ssub smul sconst Scalar_Q].
  induction (seq 0 D) as [|d l IH]; simpl.
  - ring.
  - rewrite <- IH. ring.
Qed.

Lemma expanded_ext {T : Type} {ST : Scalar T} (D : nat)
    (q q' e e' : nat -> T) :
  (forall d, d < D -> q d = q' d) -> (forall d, d < D -> e d = e' d) ->
  expanded D q e = expanded D q' e'.
Proof.
  intros Hq He. unfold expanded.
  f_equal; [f_equal|f_equal]; f_equal; apply tab1_ext; intros d Hd;
    rewrite ?Hq, ?He by assumption; reflexivity.
Qed.

(** The rows of the flattened input are the query vectors. *)
Lemma flattened_row {T : Type} {ST : Scalar T} (x : tensor T)
    (B D H W N b h w d : nat) :
  b < B -> h < H -> w < W -> d < D ->
  get2 (Tensor [N; D]
          (tab4 B H W D (fun ib ih iw ic => get4 x ib ic ih iw)))
       ((b * H + h) * W + w) d
  = get4 x b d h w.
Proof. intros. rewrite get2_Tensor. now rewrite nth_tab4. Qed.

Lemma row_index_lt (B H W b h w : nat) :
  b < B -> h < H -> w < W -> (b * H + h) * W + w < B * H * W.
Proof. intros. apply flat_index_lt; [now apply flat_index_lt|assumption]. Qed.

(** Row [(b * H + h) * W + w] of the matrix of distances holds the
    computed distances from the query at [(b, h, w)] to the codewords. *)
Lemma all_distances_row {T : Type} {ST : Scalar T} (self : VQ T)
    (x : tensor T) (B D H W N b h w k : nat) :
  VQ_wf self -> embedding_dim self = D -> shape x = [B; D; H; W] ->
  N = B * H * W ->
  b < B -> h < H -> w < W -> k < num_embeddings self ->
  let K := num_embeddings self in
  let weight := embedding_table self in
  let f := Tensor [N; D]
             (tab4 B H W D (fun ib ih iw ic => get4 x ib ic ih iw)) in
  let p := Tensor [N; K]
             (tab2 N K (fun i j =>
                ssum (tab1 D (fun k =>
                  smul (get2 f i k) (get2 (transpose weight) k j))))) in
  get2 (tsub (add_broadcast (sum_dim1_keep (pow2 f))
                            (sum_dim1 (pow2 weight)))
             (scale 2 p)) ((b * H + h) * W + w) k
  = computed_distance self x b h w k.
Proof.
  intros (HK & HD0 & Hw & Hwl) HD Hx HN Hb Hh Hw' Hk K weight f p.
  pose proof (row_index_lt B H W b h w Hb Hh Hw') as Hn.
  unfold computed_distance. subst K weight f p.
  destruct self as [K D' [ws wd] beta].
  cbn [num_embeddings embedding_dim embedding_table shape] in *.
  subst D' ws N. unfold tensor_wf in Hwl. cbn [shape data] in Hwl.
  rewrite numel2 in Hwl.
  rewrite get2_all_distances;
    [|now rewrite length_tab4|assumption|assumption|assumption].
  apply expanded_ext; [|reflexivity].
  intros d Hd. now apply flattened_row.
Qed.

(** C1, as the code has it.  For an input of shape (B, D, H, W), the index
    selected for each of the B*H*W query vectors is in range and is the
    first one that minimises the distance as [forward] computes it,
    |q|^2 + |e_k|^2 - 2 q.e_k evaluated in the arithmetic of the tensors:
    no codeword has a smaller computed distance, and every codeword of
    smaller index has a larger one.  This holds in every arithmetic; at
    float32 the computed distance is not the squared Euclidean distance. *)
Theorem forward_selects_least_computed_distance {T : Type} {ST : Scalar T}
    (self : VQ T) (x : tensor T) (B D H W : nat) :
  VQ_wf self -> embedding_dim self = D ->
  shape x = [B; D; H; W] -> tensor_wf x ->
  exists l,
    forward_locals self x = Ok l /\
    length (indexes l) = B * H * W /\
    forall b h w, b < B -> h < H -> w < W ->
      let i := selected_index l H W b h w in
      i < num_embeddings self /\
      (forall k, k < num_embeddings self ->
         (sval (computed_distance self x b h w i)
          <= sval (computed_distance self x b h w k))%Q) /\
      (forall k, k < i ->
         (sval (computed_distance self x b h w i)
          < sval (computed_distance self x b h w k))%Q).
Proof.
  intros Hwf HD Hx _.
  assert (Hmod : (B * H * W * D) mod embedding_dim self = 0)
    by (rewrite HD; apply Nat.Div0.mod_mul).
  destruct (forward_locals_run self x B D H W Hwf Hx Hmod)
    as (e & f & p & ad & idx & enc & sel & qb & st & q &
        He & Hf & Hp & Had & Hidx & _ & _ & _ & _ & _ & Hrun).
  pose proof Hwf as (HK & HD0 & _ & _).
  rewrite HD in *.
  rewrite Nat.div_mul in * by lia.
  eexists. split; [exact Hrun|]. cbn [indexes].
  split; [subst idx; apply length_tab1|].
  intros b h w Hb Hh Hw'.
  unfold selected_index. cbn [indexes].
  pose proof (row_index_lt B H W b h w Hb Hh Hw') as Hn.
  set (n := (b * H + h) * W + w) in *.
  rewrite Hidx, nth_tab1 by assumption.
  assert (Hent : forall k, k < num_embeddings self ->
            get2 ad n k = computed_distance self x b h w k).
  { intros k Hk. rewrite Had, Hp, Hf, He. cbn [data].
    now apply (all_distances_row self x B D H W (B * H * W) b h w k). }
  destruct (argmin_tab1 (num_embeddings self) (get2 ad n) HK)
    as (Hi & Hle & Hlt).
  set (i := argmin (tab1 (num_embeddings self) (get2 ad n))) in *.
  split; [assumption|]. split.
  - intros k Hk. rewrite <- !Hent by assumption. now apply Hle.
  - intros k Hk. rewrite <- !Hent by lia. now apply Hlt.
Qed.

(** In exact arithmetic the computed distance is the squared Euclidean
    distance, and the index selected is that of the first nearest
    codeword. *)
Lemma forward_selects_nearest_exact (self : VQ Q) (x : tensor Q)
    (B D H W : nat) :
  VQ_wf self -> embedding_dim self = D ->
  shape x = [B; D; H; W] -> tensor_wf x ->
  exists l,
    forward_locals self x = Ok l /\
    length (indexes l) = B * H * W /\
    forall b h w, b < B -> h < H -> w < W ->
      let i := selected_index l H W b h w in
      i < num_embeddings self /\
      (forall k, k < num_embeddings self ->
         (sqdist (query x b h w) (codeword self i)
          <= sqdist (query x b h w) (codeword self k))%Q) /\
      (forall k, k < i ->
         (sqdist (query x b h w) (codeword self i)
          < sqdist (query x b h w) (codeword self k))%Q).
Proof.
  intros Hwf HD Hx _.
  assert (Hmod : (B * H * W * D) mod embedding_dim self = 0)
    by (rewrite HD; apply Nat.Div0.mod_mul).
  destruct (forward_locals_run self x B D H W Hwf Hx Hmod)
    as (e & f & p & ad & idx & enc & sel & qb & st & q &
        He & Hf & Hp & Had & Hidx & _ & _ & _ & _ & _ & Hrun).
  destruct Hwf as (HK & HD0 & Hw & Hwl).
  rewrite HD in *.
  rewrite Nat.div_mul in * by lia.
  eexists. split; [exact Hrun|]. cbn [indexes].
  split; [subst idx; apply length_tab1|].
  intros b h w Hb Hh Hw'.
  unfold selected_index. cbn [indexes].
  pose proof (row_index_lt B H W b h w Hb Hh Hw') as Hn.
  set (n := (b * H + h) * W + w) in *.
  rewrite Hidx, nth_tab1 by assumption.
  assert (Hent : forall k, k < num_embeddings self ->
            (get2 ad n k == sqdist (query x b h w) (codeword self k))%Q).
  { intros k Hk.
    destruct self as [K D' [ws wd] beta].
    cbn [num_embeddings embedding_dim embedding_table shape] in *.
    subst D' ws. unfold tensor_wf in Hwl. cbn [shape data] in Hwl.
    rewrite numel2 in Hwl.
    rewrite Had, Hp, Hf, He. cbn [data].
    rewrite get2_all_distances;
      [|now rewrite length_tab4|assumption|assumption|assumption].
    rewrite (expanded_ext D _ (fun d => get4 x b d h w) _
               (get2 (Tensor [K; D] wd) k));
      [|intros d Hd; now apply flattened_row|reflexivity].
    rewrite expanded_sqdist. unfold query, codeword, dim.
    rewrite Hx. reflexivity. }
  destruct (argmin_tab1 (num_embeddings self) (get2 ad n) HK)
    as (Hi & Hle & Hlt).
  set (i := argmin (tab1 (num_embeddings self) (get2 ad n))) in *.
  split; [assumption|]. split.
  - intros k Hk. rewrite <- !Hent by assumption. now apply Hle.
  - intros k Hk. rewrite <- !Hent by lia. now apply Hlt.
Qed.

Lemma tab1_S {A : Type} (n : nat) (f : nat -> A) :
  tab1 (S n) f = tab1 n f ++ [f n].
Proof. unfold tab1. now rewrite seq_S, map_app. Qed.

Lemma ssum_app_Q (l r : list Q) : (ssum (l ++ r) == ssum l + ssum r)%Q.
Proof.
  unfold ssum. cbn [sadd sconst Scalar_Q].
  induction l as [|a l IH]; simpl; [ring|rewrite IH; ring].
Qed.

Lemma onehot_sum_out (K i : nat) (g : nat -> Q) :
  K <= i ->
  (ssum (tab1 K (fun k => smul (if k =? i then 1 else 0) (g k))) == 0)%Q.
Proof.
  induction K as [|K IH]; intros Hi; [reflexivity|].
  rewrite tab1_S, ssum_app_Q, IH by lia.
  destruct (Nat.eqb_spec K i); [lia|].
  unfold ssum. cbn [sadd smul sconst Scalar_Q fold_right]. ring.
Qed.

(** A one-hot row times the codebook selects one row of the codebook. *)
Lemma onehot_sum (K i : nat) (g : nat -> Q) :
  i < K ->
  (ssum (tab1 K (fun k => smul (if k =? i then 1 else 0) (g k))) == g i)%Q.
Proof.
  induction K as [|K IH]; intros Hi; [lia|].
  rewrite tab1_S, ssum_app_Q.
  unfold ssum at 2. cbn [sadd smul sconst Scalar_Q fold_right].
  destruct (Nat.eqb_spec K i) as [->|Hne].
  - rewrite onehot_sum_out by lia. ring.
  - rewrite IH by lia. ring.
Qed.

Section StraightThrough.
Context {T : Type} {ST : Scalar T}.

(** An entry of [e + (qb - e).detach()]. *)
Lemma straight_through_entry (B H W C : nat) (ed qd : list T)
    (b h w c : nat) :
  length ed = B * H * W * C -> length qd = B * H * W * C ->
  b < B -> h < H -> w < W -> c < C ->
  let e := Tensor [B; H; W; C] ed in
  let qb := Tensor [B; H; W; C] qd in
  get4 (tadd e (detach (tsub qb e))) b h w c
  = sadd (get4 e b h w c)
         (sdetach (ssub (get4 qb b h w c) (get4 e b h w c))).
Proof.
  intros He Hq Hb Hh Hw Hc e qb. unfold tadd, detach, tsub, e, qb.
  cbn [shape data]. rewrite !get4_Tensor.
  assert (Hp : ((b * H + h) * W + w) * C + c < B * H * W * C)
    by (apply flat_index_lt; [now apply row_index_lt|assumption]).
  rewrite (nth_zip_with _ _ _ _ (sconst 0%Q) (sconst 0%Q));
    [|lia|rewrite length_map, length_zip_with; lia].
  f_equal.
  rewrite (nth_map_in _ _ _ (sconst 0%Q)) by (rewrite length_zip_with; lia).
  f_equal.
  apply nth_zip_with; lia.
Qed.

(** The entries of the tensor returned by [forward], for an input of any
    channel depth that is accepted. *)
Lemma forward_quantized_entry (self : VQ T) (x : tensor T) (B C H W : nat) :
  VQ_wf self ->
  shape x = [B; C; H; W] ->
  (B * H * W * C) mod embedding_dim self = 0 ->
  exists l,
    forward_locals self x = Ok l /\
    shape (quantized l) = [B; C; H; W] /\
    tensor_wf (quantized l) /\
    shape (quantized_bhwc l) = [B; H; W; C] /\
    forall b c h w, b < B -> c < C -> h < H -> w < W ->
      get4 (quantized l) b c h w
      = sadd (get4 x b c h w)
          (sdetach (ssub (get4 (quantized_bhwc l) b h w c) (get4 x b c h w))).
Proof.
  intros Hwf Hx Hmod.
  destruct (forward_locals_run self x B C H W Hwf Hx Hmod)
    as (e & f & p & ad & idx & enc & sel & qb & st & q &
        He & _ & _ & _ & _ & _ & Hsel & Hqb & Hst & Hq & Hrun).
  destruct Hwf as (HK & HD & _ & _).
  eexists. split; [exact Hrun|].
  cbn [quantized quantized_bhwc].
  split; [now rewrite Hq|].
  split; [rewrite Hq; unfold tensor_wf; cbn [shape data];
          now rewrite length_tab4, numel4|].
  split; [now rewrite Hqb|].
  intros b c h w Hb Hc Hh Hw.
  rewrite Hq, get4_tab4 by assumption.
  rewrite Hst, Hqb, He.
  rewrite straight_through_entry; try assumption.
  - now rewrite get4_tab4.
  - apply length_tab4.
  - rewrite Hsel. cbn [data]. rewrite length_tab2.
    apply Nat.Div0.div_exact in Hmod. lia.
Qed.
End StraightThrough.

Section Selection.
Context {T : Type} {ST : Scalar T}.

(** For an input whose channel depth is the embedding dimension: the
    selected indices are in range and the entries of the quantized tensor
    are those of the product of the one-hot rows with the codebook. *)
Lemma quantized_bhwc_entry (self : VQ T) (x : tensor T) (B D H W : nat) :
  VQ_wf self -> embedding_dim self = D ->
  shape x = [B; D; H; W] ->
  exists l,
    forward_locals self x = Ok l /\
    forall b h w, b < B -> h < H -> w < W ->
      selected_index l H W b h w < num_embeddings self /\
      forall d, d < D ->
        get4 (quantized_bhwc l) b h w d
        = ssum (tab1 (num_embeddings self) (fun k =>
            smul (if k =? selected_index l H W b h w
                  then sconst 1%Q else sconst 0%Q)
                 (get2 (embedding_table self) k d))).
Proof.
  intros Hwf HD Hx.
  assert (Hmod : (B * H * W * D) mod embedding_dim self = 0)
    by (rewrite HD; apply Nat.Div0.mod_mul).
  destruct (forward_locals_run self x B D H W Hwf Hx Hmod)
    as (e & f & p & ad & idx & enc & sel & qb & st & q &
        _ & _ & _ & _ & Hidx & Henc & Hsel & Hqb & _ & _ & Hrun).
  destruct Hwf as (HK & HD0 & _ & _).
  rewrite HD in *. rewrite Nat.div_mul in * by lia.
  eexists. split; [exact Hrun|].
  intros b h w Hb Hh Hw.
  unfold selected_index. cbn [indexes quantized_bhwc].
  pose proof (row_index_lt B H W b h w Hb Hh Hw) as Hn.
  set (n := (b * H + h) * W + w) in *.
  split.
  - rewrite Hidx, nth_tab1 by assumption.
    now apply argmin_tab1.
  - intros d Hd.
    rewrite Hqb, Hsel. cbn [data]. rewrite get4_Tensor. fold n.
    rewrite nth_tab2 by assumption.
    f_equal. apply tab1_ext. intros k Hk. f_equal.
    rewrite Henc. now apply get2_encodings.
Qed.
End Selection.

Lemma Ok_inj {A : Type} (a b : A) : Ok a = Ok b -> a = b.
Proof. now intros [= ->]. Qed.

Lemma forward_of_locals {T : Type} {ST : Scalar T} (self : VQ T)
    (x : tensor T) (l : locals T) :
  forward_locals self x = Ok l ->
  forward self x = Ok (quantized l, total_loss l).
Proof. intros E. unfold forward. now rewrite E. Qed.

(** ** The values returned, at float32 *)

Lemma digits2_pos_shift23 (m : positive) :
  (Zpos (digits2_pos (Pos.mul 8388608 m)) = Zpos (digits2_pos m) + 23)%Z.
Proof. cbn [Pos.mul digits2_pos]. lia. Qed.

Lemma iter_shr_23 (m : positive) :
  iter_pos shr_1 23 (Build_shr_record (Zpos (Pos.mul 8388608 m)) false false)
  = Build_shr_record (Zpos m) false false.
Proof. reflexivity. Qed.

(** 1.0 * x is x: the product 2^23 * m is shifted back by 23 bits, none of
    which is set, so nothing is rounded. *)
Lemma f32_mul_one_finite (s : bool) (m : positive) (e : Z) :
  bounded prec32 emax32 m e = true ->
  SFmul prec32 emax32 f32_one (S754_finite s m e) = S754_finite s m e.
Proof.
  intros Hb. unfold bounded, canonical_mantissa in Hb.
  apply andb_true_iff in Hb. destruct Hb as [Hc He].
  apply Z.eqb_eq in Hc.
  unfold SFmul, f32_one, binary_round_aux.
  unfold shr_fexp at 1. unfold Zdigits2.
  rewrite digits2_pos_shift23.
  replace (Z.pos (digits2_pos m) + 23 + (-23 + e))%Z
    with (Z.pos (digits2_pos m) + e)%Z by lia.
  rewrite Hc.
  replace (e - (-23 + e))%Z with 23%Z by lia.
  unfold shr_record_of_loc, shr.
  rewrite iter_shr_23.
  cbn [shr_m loc_of_shr_record round_nearest_even].
  replace (-23 + e + 23)%Z with e by lia.
  unfold shr_fexp, Zdigits2. rewrite Hc, Z.sub_diag.
  cbn [shr shr_record_of_loc shr_m].
  rewrite He. destruct s; reflexivity.
Qed.

Lemma f32_mul_one (x : f32) :
  f32_finite x = true -> smul (sconst 1%Q) x = x.
Proof.
  destruct x as [s|s| |s m e]; cbn [f32_finite]; try discriminate; intros Hx.
  - now destruct s.
  - now apply f32_mul_one_finite.
Qed.

Lemma f32_mul_zero (x : f32) :
  f32_finite x = true -> f32_is_zero (smul (sconst 0%Q) x) = true.
Proof.
  destruct x as [s|s| |s m e]; cbn [f32_finite]; try discriminate; reflexivity.
Qed.

Lemma f32_add_zero_l (a r w : f32) :
  f32_is_zero a = true -> f32_finite w = true -> same_number r w ->
  same_number (sadd a r) w.
Proof.
  intros Ha Hw [->|[Hr Hz]].
  - destruct a as [sa| | |]; try discriminate.
    destruct w as [s|s| |s m e]; try discriminate.
    + right. split; [now destruct sa, s|reflexivity].
    + now left.
  - right. split; [|assumption].
    destruct a as [sa| | |], r as [sr| | |]; try discriminate.
    now destruct sa, sr.
Qed.

Lemma f32_add_zero_r (w z : f32) :
  f32_finite w = true -> f32_is_zero z = true -> same_number (sadd w z) w.
Proof.
  intros Hw Hz.
  destruct z as [sz| | |]; try discriminate.
  destruct w as [s|s| |s m e]; try discriminate.
  - right. split; [now destruct s, sz|reflexivity].
  - now left.
Qed.

Lemma f32_add_zeros (a z : f32) :
  f32_is_zero a = true -> f32_is_zero z = true ->
  f32_is_zero (sadd a z) = true.
Proof.
  destruct a as [sa| | |], z as [sz| | |]; try discriminate.
  now destruct sa, sz.
Qed.

Lemma f32_onehot_sum_from (i : nat) (g : nat -> f32) (n a : nat) :
  (forall k, a <= k < a + n -> f32_finite (g k) = true) ->
  let s := ssum (map (fun k =>
             smul (if k =? i then sconst 1%Q else sconst 0%Q) (g k))
             (seq a n)) in
  (a <= i < a + n -> same_number s (g i)) /\
  (~ a <= i < a + n -> f32_is_zero s = true).
Proof.
  revert a. induction n as [|n IH]; intros a Hfin s.
  - split; [lia|reflexivity].
  - subst s. cbn [seq map]. unfold ssum. cbn [fold_right].
    fold (@ssum f32 _).
    destruct (IH (S a)) as [IHin IHout]; [intros k Hk; apply Hfin; lia|].
    assert (Hga : f32_finite (g a) = true) by (apply Hfin; lia).
    destruct (Nat.eqb_spec a i) as [->|Hne]; split; intros Hi; try lia.
    + rewrite f32_mul_one by assumption.
      apply f32_add_zero_r; [assumption|apply IHout; lia].
    + apply f32_add_zero_l;
        [now apply f32_mul_zero|apply Hfin; lia|apply IHin; lia].
    + apply f32_add_zeros; [now apply f32_mul_zero|apply IHout; lia].
Qed.

(** At float32 a one-hot row times a codebook of numbers selects one row
    of the codebook and rounds nothing: the products with 0.0 are zeros,
    the product with 1.0 is the entry, and adding zeros changes at most the
    sign of a zero. *)
Lemma f32_onehot_sum (K i : nat) (g : nat -> f32) :
  i < K -> (forall k, k < K -> f32_finite (g k) = true) ->
  same_number
    (ssum (tab1 K (fun k =>
       smul (if k =? i then sconst 1%Q else sconst 0%Q) (g k))))
    (g i).
Proof.
  intros Hi Hfin.
  apply (f32_onehot_sum_from i g K 0); [intros k Hk; apply Hfin; lia|lia].
Qed.

(** C2, as the code has it at float32.  For an input of shape (B, D, H, W)
    and a codebook of numbers (no infinity, no NaN), at every batch entry,
    position and channel: the product of the one-hot matrix with the
    codebook holds the entry of the codebook row selected there, equal as a
    number, and the tensor returned as [quantized] holds the float32 sum
    [input + (product - input)], both operations rounded.  The returned
    value is the codebook entry only when these two roundings cancel. *)
Theorem forward_returns_straight_through_sum (self : VQ f32) (x : tensor f32)
    (B D H W : nat) :
  VQ_wf self -> embedding_dim self = D ->
  shape x = [B; D; H; W] -> tensor_wf x ->
  Forall (fun v => f32_finite v = true) (data (embedding_table self)) ->
  exists l,
    forward_locals self x = Ok l /\
    forward self x = Ok (quantized l, total_loss l) /\
    forall b d h w, b < B -> d < D -> h < H -> w < W ->
      let i := selected_index l H W b h w in
      i < num_embeddings self /\
      same_number (get4 (quantized_bhwc l) b h w d)
                  (get2 (embedding_table self) i d) /\
      get4 (quantized l) b d h w
      = SFadd prec32 emax32 (get4 x b d h w)
          (SFsub prec32 emax32 (get4 (quantized_bhwc l) b h w d)
             (get4 x b d h w)).
Proof.
  intros Hwf HD Hx _ Hfin.
  assert (Hmod : (B * H * W * D) mod embedding_dim self = 0)
    by (rewrite HD; apply Nat.Div0.mod_mul).
  destruct (forward_quantized_entry self x B D H W Hwf Hx Hmod)
    as (l & Hrun & _ & _ & _ & Hst).
  destruct (quantized_bhwc_entry self x B D H W Hwf HD Hx)
    as (l' & Hrun' & Hsel).
  rewrite Hrun in Hrun'. apply Ok_inj in Hrun'. subst l'.
  exists l. split; [assumption|].
  split; [now apply forward_of_locals|].
  intros b d h w Hb Hd Hh Hw i.
  destruct (Hsel b h w Hb Hh Hw) as (Hi & Hq). fold i in Hi, Hq.
  split; [assumption|]. split.
  - rewrite Hq by assumption.
    apply (f32_onehot_sum (num_embeddings self) i
             (fun k => get2 (embedding_table self) k d) Hi).
    intros k Hk.
    destruct Hwf as (_ & _ & Hw' & Hwl).
    unfold get2, dim. rewrite Hw'. cbn [nth].
    rewrite Forall_forall in Hfin. apply Hfin, nth_In.
    unfold tensor_wf in Hwl. rewrite Hwl, Hw', numel2, HD.
    now apply flat_index_lt.
  - now rewrite Hst by assumption.
Qed.

(** In exact arithmetic the straight-through sum is the codebook entry:
    there the tensor returned holds, at every batch entry and position, the
    codebook row at the index selected there. *)
Lemma forward_returns_codewords_exact (self : VQ Q) (x : tensor Q)
    (B D H W : nat) :
  VQ_wf self -> embedding_dim self = D ->
  shape x = [B; D; H; W] -> tensor_wf x ->
  exists l,
    forward_locals self x = Ok l /\
    forward self x = Ok (quantized l, total_loss l) /\
    forall b d h w, b < B -> d < D -> h < H -> w < W ->
      let i := selected_index l H W b h w in
      (get4 (quantized_bhwc l) b h w d == get2 (embedding_table self) i d)%Q /\
      (get4 (quantized l) b d h w == get2 (embedding_table self) i d)%Q.
Proof.
  intros Hwf HD Hx _.
  assert (Hmod : (B * H * W * D) mod embedding_dim self = 0)
    by (rewrite HD; apply Nat.Div0.mod_mul).
  destruct (forward_quantized_entry self x B D H W Hwf Hx Hmod)
    as (l & Hrun & _ & _ & _ & Hst).
  destruct (quantized_bhwc_entry self x B D H W Hwf HD Hx)
    as (l' & Hrun' & Hsel).
  rewrite Hrun in Hrun'. apply Ok_inj in Hrun'. subst l'.
  exists l. split; [assumption|].
  split; [now apply forward_of_locals|].
  intros b d h w Hb Hd Hh Hw i.
  destruct (Hsel b h w Hb Hh Hw) as (Hi & Hq). fold i in Hi, Hq.
  assert (E : (get4 (quantized_bhwc l) b h w d
               == get2 (embedding_table self) i d)%Q).
  { rewrite Hq by assumption.
    apply (onehot_sum (num_embeddings self) i
             (fun k => get2 (embedding_table self) k d) Hi). }
  split; [exact E|].
  rewrite Hst by assumption.
  cbn [sadd ssub sdetach Scalar_Q]. rewrite E. ring.
Qed.

(** ** Shapes, accepted inputs and the empty input *)

Lemma zip_with_nil_r {A B C : Type} (f : A -> B -> C) (l : list A) :
  zip_with f l [] = [].
Proof. now destruct l. Qed.

Lemma raises_Raise {A : Type} (e : exn) : raises (@Raise A e).
Proof. now exists e. Qed.

Lemma not_raises_Ok {A : Type} (a : A) : ~ raises (Ok a).
Proof. intros (e & E). discriminate. Qed.

(** C7. For an input of shape (B, D, H, W) whose channel depth is the
    embedding dimension, [forward] returns, and the returned [quantized]
    tensor has the shape (B, D, H, W) of the input. *)
Theorem forward_preserves_shape {T : Type} {ST : Scalar T} (self : VQ T)
    (x : tensor T) (B D H W : nat) :
  VQ_wf self -> embedding_dim self = D ->
  shape x = [B; D; H; W] -> tensor_wf x ->
  exists q loss,
    forward self x = Ok (q, loss) /\
    shape q = shape x /\ tensor_wf q.
Proof.
  intros Hwf HD Hx _.
  assert (Hmod : (B * H * W * D) mod embedding_dim self = 0)
    by (rewrite HD; apply Nat.Div0.mod_mul).
  destruct (forward_quantized_entry self x B D H W Hwf Hx Hmod)
    as (l & Hrun & Hs & Hq & _).
  exists (quantized l), (total_loss l).
  split; [now apply forward_of_locals|].
  split; [now rewrite Hx|assumption].
Qed.

(** C8. For an input with no query vector (B * H * W = 0) and channel
    depth D, [forward] returns: the quantized tensor has the shape of the
    input and no element, and the loss is NaN, the mean of no element. *)
Theorem forward_on_empty_input {T : Type} {ST : Scalar T} (self : VQ T)
    (x : tensor T) (B D H W : nat) :
  VQ_wf self -> embedding_dim self = D ->
  shape x = [B; D; H; W] -> tensor_wf x ->
  B * H * W = 0 ->
  exists q,
    forward self x = Ok (q, NaN) /\
    shape q = shape x /\ data q = [].
Proof.
  intros Hwf HD Hx _ H0.
  assert (Hmod : (B * H * W * D) mod embedding_dim self = 0)
    by (rewrite HD; apply Nat.Div0.mod_mul).
  destruct (forward_locals_run self x B D H W Hwf Hx Hmod)
    as (e & f & p & ad & idx & enc & sel & qb & st & q &
        He & _ & _ & _ & _ & _ & _ & _ & _ & Hq & Hrun).
  assert (Hed : data e = []).
  { apply length_zero_iff_nil. rewrite He. cbn [data].
    rewrite length_tab4, H0. reflexivity. }
  exists q. split.
  - rewrite (forward_of_locals _ _ _ Hrun). cbn [quantized total_loss].
    unfold mse_loss at 1. rewrite Hed, zip_with_nil_r. reflexivity.
  - rewrite Hq, Hx. cbn [shape data]. split; [reflexivity|].
    apply length_zero_iff_nil. rewrite length_tab4.
    replace (B * D * H * W) with (B * H * W * D) by lia.
    now rewrite H0.
Qed.

(** C6, as the code has it.  [forward] has no check of the channel depth:
    on a 4-d input of shape (B, C, H, W) it raises exactly when the element
    count B * C * H * W is not a multiple of the embedding dimension, at the
    [view(-1, D)]; every other input is accepted, whatever its channel
    depth. *)
Theorem forward_raises_iff_not_multiple {T : Type} {ST : Scalar T}
    (self : VQ T) (x : tensor T) (B C H W : nat) :
  VQ_wf self -> shape x = [B; C; H; W] -> tensor_wf x ->
  (raises (forward self x) <->
   (B * C * H * W) mod embedding_dim self <> 0) /\
  ((B * C * H * W) mod embedding_dim self <> 0 ->
   forward self x = Raise RuntimeError).
Proof.
  intros Hwf Hx _.
  replace (B * C * H * W) with (B * H * W * C) by lia.
  assert (Hr : (B * H * W * C) mod embedding_dim self <> 0 ->
               forward self x = Raise RuntimeError).
  { intros Hmod. unfold forward.
    now rewrite (forward_locals_raise self x B C H W Hx Hmod). }
  split; [split|exact Hr].
  - intros Hraise Hmod.
    destruct (forward_quantized_entry self x B C H W Hwf Hx Hmod)
      as (l & Hrun & _).
    rewrite (forward_of_locals _ _ _ Hrun) in Hraise.
    now apply not_raises_Ok in Hraise.
  - intros Hmod. rewrite (Hr Hmod). apply raises_Raise.
Qed.

(** ** The loss *)






(** ** Derivatives: the run over dual numbers *)

(** C4. Along every direction of the encoder input and of the codebook,
    the derivative of each entry of the returned [quantized] tensor is the
    derivative of the same entry of the encoder input: the Jacobian with
    respect to the encoder input is the identity, whatever codewords were
    selected, and nothing flows from the codebook. *)
Theorem forward_straight_through_gradient (self : VQ dual) (x : tensor dual)
    (B D H W : nat) :
  VQ_wf self -> embedding_dim self = D ->
  shape x = [B; D; H; W] -> tensor_wf x ->
  exists l,
    forward_locals self x = Ok l /\
    forward self x = Ok (quantized l, total_loss l) /\
    shape (quantized l) = shape x /\
    forall b d h w, b < B -> d < D -> h < H -> w < W ->
      (tan (get4 (quantized l) b d h w) == tan (get4 x b d h w))%Q.
Proof.
  intros Hwf HD Hx _.
  assert (Hmod : (B * H * W * D) mod embedding_dim self = 0)
    by (rewrite HD; apply Nat.Div0.mod_mul).
  destruct (forward_quantized_entry self x B D H W Hwf Hx Hmod)
    as (l & Hrun & Hs & _ & _ & Hst).
  exists l. split; [assumption|].
  split; [now apply forward_of_locals|].
  split; [now rewrite Hx|].
  intros b d h w Hb Hd Hh Hw.
  rewrite Hst by assumption.
  cbn [sadd ssub sdetach Scalar_dual tan]. ring.
Qed.

(** *** Where the derivative of each loss term can come from *)

Lemma tan0_sadd (a b : dual) : tan0 a -> tan0 b -> tan0 (sadd a b).
Proof. unfold tan0. cbn. intros -> ->. ring. Qed.

Lemma tan0_ssub (a b : dual) : tan0 a -> tan0 b -> tan0 (ssub a b).
Proof. unfold tan0. cbn. intros -> ->. ring. Qed.

Lemma tan0_smul (a b : dual) : tan0 a -> tan0 b -> tan0 (smul a b).
Proof. unfold tan0. cbn. intros -> ->. ring. Qed.

Lemma tan0_sdivn (a : dual) (n : nat) : tan0 a -> tan0 (sdivn a n).
Proof. unfold tan0. cbn. unfold Qdivn, Qdiv. intros ->. ring. Qed.

Lemma tan0_sdetach (a : dual) : tan0 (sdetach a).
Proof. unfold tan0. cbn. reflexivity. Qed.

Lemma tan0_sconst (c : Q) : tan0 (sconst c).
Proof. unfold tan0. cbn. reflexivity. Qed.

Lemma tan0_ssum (l : list dual) : zero_tangent l -> tan0 (ssum l).
Proof.
  induction 1 as [|a l Ha _ IH]; [apply tan0_sconst|].
  now apply tan0_sadd.
Qed.

Lemma tan0_nth (l : list dual) (i : nat) :
  zero_tangent l -> tan0 (nth i l (sconst 0%Q)).
Proof.
  intros Hl. destruct (Nat.lt_ge_cases i (length l)) as [Hi|Hi].
  - unfold zero_tangent in Hl. rewrite Forall_forall in Hl.
    now apply Hl, nth_In.
  - rewrite nth_overflow by assumption. apply tan0_sconst.
Qed.

Lemma zero_tangent_tab1 (n : nat) (f : nat -> dual) :
  (forall i, tan0 (f i)) -> zero_tangent (tab1 n f).
Proof. intros Hf. apply Forall_tab1. intros. apply Hf. Qed.

Lemma zero_tangent_concat (ll : list (list dual)) :
  Forall zero_tangent ll -> zero_tangent (concat ll).
Proof. intros Hl. now apply Forall_concat. Qed.

Lemma zero_tangent_tab2 (n m : nat) (f : nat -> nat -> dual) :
  (forall i j, tan0 (f i j)) -> zero_tangent (tab2 n m f).
Proof.
  intros Hf. apply zero_tangent_concat, Forall_tab1. intros i _.
  now apply zero_tangent_tab1.
Qed.

Lemma zero_tangent_tab4 (n0 n1 n2 n3 : nat)
    (f : nat -> nat -> nat -> nat -> dual) :
  (forall i0 i1 i2 i3, tan0 (f i0 i1 i2 i3)) ->
  zero_tangent (tab4 n0 n1 n2 n3 f).
Proof.
  intros Hf. unfold tab4.
  apply zero_tangent_concat, Forall_tab1. intros i0 _.
  apply zero_tangent_concat, Forall_tab1. intros i1 _.
  now apply (zero_tangent_tab2 n2 n3).
Qed.

(** The squared differences of two lists one of which carries no
    derivative, the other being detached. *)
Lemma zero_tangent_square_detached_l (qd ed : list dual) :
  zero_tangent ed ->
  zero_tangent
    (zip_with (fun a b => smul (ssub a b) (ssub a b)) (map sdetach qd) ed).
Proof.
  intros He. revert qd.
  induction He as [|b ed Hb _ IH]; intros [|a qd]; cbn [map zip_with];
    try constructor.
  - apply tan0_smul; apply tan0_ssub; auto using tan0_sdetach.
  - apply IH.
Qed.

Lemma zero_tangent_square_detached_r (qd ed : list dual) :
  zero_tangent qd ->
  zero_tangent
    (zip_with (fun a b => smul (ssub a b) (ssub a b)) qd (map sdetach ed)).
Proof.
  intros Hq. revert ed.
  induction Hq as [|a qd Ha _ IH]; intros [|b ed]; cbn [map zip_with];
    try constructor.
  - apply tan0_smul; apply tan0_ssub; auto using tan0_sdetach.
  - apply IH.
Qed.

Lemma loss_tan0_mean (l : list dual) : zero_tangent l -> loss_tan0 (mean l).
Proof.
  intros Hl. unfold mean. destruct (length l); [exact I|].
  cbn [loss_tan0]. now apply tan0_sdivn, tan0_ssum.
Qed.

(** The first loss term does not depend on the codebook: along a
    direction that leaves the encoder input in place, whatever it does to
    the codebook, its derivative is zero. *)
Lemma first_term_ignores_codebook (self : VQ dual) (x : tensor dual)
    (B C H W : nat) :
  VQ_wf self -> shape x = [B; C; H; W] ->
  (B * H * W * C) mod embedding_dim self = 0 ->
  zero_tangent (data x) ->
  exists l, forward_locals self x = Ok l /\ loss_tan0 (first_term l).
Proof.
  intros Hwf Hx Hmod Hz.
  destruct (forward_locals_run self x B C H W Hwf Hx Hmod)
    as (e & f & p & ad & idx & enc & sel & qb & st & q &
        He & _ & _ & _ & _ & _ & _ & _ & _ & _ & Hrun).
  eexists. split; [exact Hrun|]. cbn [first_term].
  unfold mse_loss, detach. cbn [data].
  apply loss_tan0_mean, zero_tangent_square_detached_l.
  rewrite He. cbn [data]. apply zero_tangent_tab4.
  intros. unfold get4. now apply tan0_nth.
Qed.

(** The second loss term, the one weighted by beta, does not depend on the
    encoder input: along a direction that leaves the codebook in place its
    derivative is zero. *)
Lemma second_term_ignores_encoder (self : VQ dual) (x : tensor dual)
    (B C H W : nat) :
  VQ_wf self -> shape x = [B; C; H; W] ->
  (B * H * W * C) mod embedding_dim self = 0 ->
  zero_tangent (data (embedding_table self)) ->
  exists l, forward_locals self x = Ok l /\ loss_tan0 (second_term l).
Proof.
  intros Hwf Hx Hmod Hz.
  destruct (forward_locals_run self x B C H W Hwf Hx Hmod)
    as (e & f & p & ad & idx & enc & sel & qb & st & q &
        _ & _ & _ & _ & _ & Henc & Hsel & Hqb & _ & _ & Hrun).
  eexists. split; [exact Hrun|]. cbn [second_term].
  unfold mse_loss, detach. cbn [data].
  apply loss_tan0_mean, zero_tangent_square_detached_r.
  rewrite Hqb, Hsel. cbn [data]. apply zero_tangent_tab2.
  intros i j. apply tan0_ssum, zero_tangent_tab1. intros k.
  apply tan0_smul.
  - rewrite Henc. unfold get2. apply tan0_nth.
    unfold scatter_1. cbn [data]. apply zero_tangent_tab2.
    intros i' j'. destruct (j' =? nth i' idx 0); [apply tan0_sconst|].
    unfold get2, zeros. cbn [data]. apply tan0_nth.
    apply Forall_forall. intros a Ha. apply repeat_spec in Ha. subst a.
    apply tan0_sconst.
  - unfold get2. now apply tan0_nth.
Qed.

(** C5, on the code.  With the codebook [[0,0],[10,10],[-10,10],[10,-10]]
    and the query [1, 1]: along the first element of the encoder input the
    derivative of the first loss term is 1 and the one of the second term is
    0; along the first element of the codebook the derivative of the first
    term is 0 and the one of the second term is -1.  The first term moves
    the encoder only, the second, weighted by beta, the codebook only. *)
Theorem loss_terms_gradient_flow :
  (exists t1 t2, loss_term_tangents along_input = Some (t1, t2) /\
                 (t1 == 1)%Q /\ (t2 == 0)%Q) /\
  (exists t1 t2, loss_term_tangents along_codebook = Some (t1, t2) /\
                 (t1 == 0)%Q /\ (t2 == -1)%Q).
Proof.
  split; eexists; eexists; (split; [vm_compute; reflexivity|]);
    split; vm_compute; reflexivity.
Qed.

(** ** The masks *)

Lemma length_set_nth {A : Type} (i : nat) (v : A) (l : list A) :
  length (set_nth i v l) = length l.
Proof.
  revert i. induction l as [|a l IH]; intros [|i]; simpl; auto.
Qed.

Lemma nth_set_nth_eq {A : Type} (i : nat) (v d : A) (l : list A) :
  i < length l -> nth i (set_nth i v l) d = v.
Proof.
  revert i. induction l as [|a l IH]; intros [|i] Hi; simpl in *;
    try lia; auto.
  apply IH. lia.
Qed.

Lemma nth_set_nth_ne {A : Type} (i j : nat) (v d : A) (l : list A) :
  i <> j -> nth j (set_nth i v l) d = nth j l d.
Proof.
  revert i j. induction l as [|a l IH]; intros [|i] [|j] Hne; simpl;
    try congruence; auto.
Qed.

Lemma Forall_set_nth {A : Type} (P : A -> Prop) (i : nat) (v : A)
    (l : list A) :
  Forall P l -> (i < length l -> P v) -> Forall P (set_nth i v l).
Proof.
  intros Hl. revert i. induction Hl as [|a l Ha Hl IH]; intros [|i] Hv;
    simpl in *; constructor; auto.
  - apply Hv. lia.
  - apply IH. intros. apply Hv. lia.
Qed.

Lemma grid_dims_row (n m : nat) (g : grid) (i : nat) :
  grid_dims n m g -> i < n -> length (nth i g []) = m.
Proof.
  intros (Hn & Hrows) Hi.
  rewrite Forall_forall in Hrows. apply Hrows, nth_In. lia.
Qed.

Lemma grid_dims_set (n m : nat) (g : grid) (i j : nat) (v : Z) :
  grid_dims n m g -> grid_dims n m (grid_set g i j v).
Proof.
  intros Hg. pose proof Hg as (Hn & Hrows). unfold grid_set. split.
  - now rewrite length_set_nth.
  - apply Forall_set_nth; [assumption|].
    intros Hi. rewrite length_set_nth.
    apply (grid_dims_row n m); [assumption|lia].
Qed.

Lemma grid_dims_zeros (n m : nat) :
  grid_dims n m (repeat (repeat 0%Z m) n).
Proof.
  split; [apply repeat_length|].
  apply Forall_forall. intros r Hr.
  apply repeat_spec in Hr. subst r. apply repeat_length.
Qed.

Lemma fold_left_preserves {A B : Type} (P : A -> Prop) (f : A -> B -> A)
    (l : list B) (a : A) :
  (forall a b, P a -> P (f a b)) -> P a -> P (fold_left f l a).
Proof.
  intros Hf. revert a. induction l as [|b l IH]; intros a Ha; simpl; auto.
Qed.

Lemma grid_get_set (n m : nat) (g : grid) (i j i' j' : nat) (v : Z) :
  grid_dims n m g -> i < n -> j < m ->
  grid_get (grid_set g i j v) i' j'
  = if (i' =? i) && (j' =? j) then v else grid_get g i' j'.
Proof.
  intros Hg Hi Hj. pose proof Hg as (Hn & _).
  pose proof (grid_dims_row n m g i Hg Hi) as Hrow.
  unfold grid_get, grid_set.
  destruct (Nat.eqb_spec i' i) as [->|Hne]; cbn [andb].
  - rewrite nth_set_nth_eq by lia.
    destruct (Nat.eqb_spec j' j) as [->|Hne'].
    + apply nth_set_nth_eq. lia.
    + apply nth_set_nth_ne. congruence.
  - rewrite nth_set_nth_ne by congruence. reflexivity.
Qed.

Lemma np_index_lt (n : nat) (i : Z) (k : nat) :
  np_index n i = Ok k -> k < n.
Proof.
  unfold np_index. intros E.
  destruct ((0 <=? i) && (i <? Z.of_nat n))%Z eqn:E1.
  - injection E as <-. lia.
  - destruct ((- Z.of_nat n <=? i) && (i <? 0))%Z eqn:E2; [|discriminate].
    injection E as <-. lia.
Qed.

(** The grid after the two loops of [conv_mask_abstract]. *)
Lemma mask_loops_dims (size : nat) (x y : Z) :
  grid_dims size size
    (fold_left (fun g i =>
       fold_left (fun g j =>
         if ((Z.of_nat j <? x) || (Z.of_nat i <? y))%Z
         then grid_set g i j 1%Z else g) (seq 0 size) g)
       (seq 0 size) (repeat (repeat 0%Z size) size)).
Proof.
  apply fold_left_preserves; [|apply grid_dims_zeros].
  intros g i Hg. apply fold_left_preserves; [|assumption].
  intros g' j Hg'.
  destruct ((Z.of_nat j <? x) || (Z.of_nat i <? y))%Z;
    [now apply grid_dims_set|assumption].
Qed.

(** C9. For every size and every current position that indexes the grid
    (numpy's indices: negative ones count from the end), the masks of type
    "B" and of type "A" are both returned, the entry at the current position
    is 1 in the mask of type "B" and 0 in the mask of type "A", and the two
    masks agree at every other entry. *)
Theorem conv_mask_types_differ_at_current_position (size : nat) (x y : Z)
    (row col : nat) :
  np_index size y = Ok row -> np_index size x = Ok col ->
  exists maskA maskB,
    conv_mask_abstract size (x, y) "A" = Ok maskA /\
    conv_mask_abstract size (x, y) "B" = Ok maskB /\
    grid_dims size size maskA /\ grid_dims size size maskB /\
    grid_get maskB row col = 1%Z /\
    grid_get maskA row col = 0%Z /\
    forall i j, i < size -> j < size -> (i, j) <> (row, col) ->
      grid_get maskB i j = grid_get maskA i j.
Proof.
  intros Hy Hx.
  pose proof (np_index_lt _ _ _ Hy) as Hrow.
  pose proof (np_index_lt _ _ _ Hx) as Hcol.
  pose proof (mask_loops_dims size x y) as Hg.
  unfold conv_mask_abstract. cbn [String.eqb Ascii.eqb Bool.eqb].
  set (g := fold_left _ _ _) in *.
  unfold grid_setitem.
  pose proof Hg as (Hlen & _).
  rewrite Hlen, Hy. cbn [bind].
  rewrite (grid_dims_row size size g row Hg Hrow), Hx. cbn [bind].
  do 2 eexists. split; [reflexivity|]. split; [reflexivity|].
  split; [now apply grid_dims_set|]. split; [now apply grid_dims_set|].
  rewrite !(grid_get_set size size) by assumption.
  rewrite !Nat.eqb_refl. cbn [andb].
  split; [reflexivity|]. split; [reflexivity|].
  intros i j Hi Hj Hne.
  rewrite !(grid_get_set size size) by assumption.
  destruct (Nat.eqb_spec i row) as [->|]; [|reflexivity].
  destruct (Nat.eqb_spec j col) as [->|]; [congruence|reflexivity].
Qed.

(** A current position outside the grid: no mask of either type. *)
Lemma conv_mask_out_of_range (size : nat) (x y : Z) (mask_type : string) :
  raises (np_index size y) \/ raises (np_index size x) ->
  raises (conv_mask_abstract size (x, y) mask_type).
Proof.
  intros Hout.
  pose proof (mask_loops_dims size x y) as Hg.
  unfold conv_mask_abstract.
  set (g := fold_left _ _ _) in *.
  assert (Hs : forall v, raises (grid_setitem g y x v)).
  { intros v. unfold grid_setitem.
    pose proof Hg as (Hlen & _).
    rewrite Hlen.
    destruct (np_index size y) as [row|e] eqn:Ey; cbn [bind];
      [|apply raises_Raise].
    rewrite (grid_dims_row size size g row Hg (np_index_lt _ _ _ Ey)).
    destruct Hout as [(e & He)|(e & He)]; [discriminate|].
    rewrite He. apply raises_Raise. }
  destruct (String.eqb mask_type "B"); apply Hs.
Qed.

(** ** The constructor of MaskedConv2d *)

Lemma setattr_then_register (self : conv2d) (name : string)
    (v v' : pyvalue) :
  raises (self' <- setattr self name v ;; register_buffer self' name v').
Proof.
  unfold setattr, register_buffer.
  destruct (has_key name (buffers self)) eqn:E; cbn [bind];
    [apply raises_Raise|].
  cbn [attributes buffers has_key existsb fst]. rewrite String.eqb_refl.
  fold (has_key name (buffers self)). rewrite E. cbn [orb negb andb].
  apply raises_Raise.
Qed.

Section MaskedConv2dFacts.
Variable args : Type.
Variable Conv2d_init : args -> result conv2d.

(** C10. Whatever the mask type and the arguments, and whatever the base
    constructor does with them, constructing a [MaskedConv2d] raises: when
    the base constructor returns, the call of [self.weight.shape] is a
    [TypeError].  The statements after it raise as well for every size of
    the weight, at the latest in [register_buffer], which finds the
    attribute "mask" just assigned.  So no constructed instance exists to
    call [forward] on. *)
Theorem MaskedConv2d_init_always_raises (mask_type : string) (a : args) :
  raises (MaskedConv2d_init Conv2d_init mask_type a) /\
  (forall self, Conv2d_init a = Ok self ->
     MaskedConv2d_init Conv2d_init mask_type a = Raise TypeError) /\
  (forall m, MaskedConv2d_init Conv2d_init mask_type a <> Ok m) /\
  (forall self size, raises (MaskedConv2d_setup self mask_type size)) /\
  (forall self b c h w mask,
     has_key "mask" (buffers self) = false ->
     conv_mask_abstract h (Z.of_nat (w / 2), Z.of_nat (h / 2)) mask_type
     = Ok mask ->
     MaskedConv2d_setup self mask_type [b; c; h; w] = Raise KeyError).
Proof.
  assert (Hinit : forall self, Conv2d_init a = Ok self ->
            MaskedConv2d_init Conv2d_init mask_type a = Raise TypeError).
  { intros self E. unfold MaskedConv2d_init. rewrite E. reflexivity. }
  assert (Hr : raises (MaskedConv2d_init Conv2d_init mask_type a)).
  { destruct (Conv2d_init a) as [self|e] eqn:E.
    - rewrite (Hinit self eq_refl). apply raises_Raise.
    - unfold MaskedConv2d_init. rewrite E. apply raises_Raise. }
  split; [exact Hr|]. split; [exact Hinit|]. split; [|split].
  - intros m Em. destruct Hr as (e & He). congruence.
  - intros self size. unfold MaskedConv2d_setup.
    destruct size as [|b [|c [|h [|w [|extra size]]]]];
      try apply raises_Raise.
    destruct (conv_mask_abstract h _ mask_type) as [mask|e];
      cbn [bind]; [|apply raises_Raise].
    apply setattr_then_register.
  - intros self b c h w mask Hb Hm. unfold MaskedConv2d_setup.
    rewrite Hm. cbn [bind]. unfold setattr. rewrite Hb. cbn [bind].
    unfold register_buffer.
    cbn [attributes buffers has_key existsb fst String.eqb Ascii.eqb
         Bool.eqb orb].
    fold (has_key "mask" (buffers self)). rewrite Hb. reflexivity.
Qed.
End MaskedConv2dFacts.

(** ** The properties on the concrete states and inputs *)

Ltac by_computation :=
  repeat split; simpl; try reflexivity; try lia.

(** The scenario of the specification: the query [1, 1] is at squared
    distance 2 from the codeword [0, 0] and at least 162 from the others;
    index 0 is selected and the output is [0, 0] in shape (1, 2, 1, 1). *)
Example scenario_single_query :
  exists l,
    forward_locals example_vq example_input = Ok l /\
    indexes l = [0] /\
    shape (quantized l) = [1; 2; 1; 1] /\
    data (quantized l) = [0; 0]%Q /\
    (sqdist (query example_input 0 0 0) (codeword example_vq 0) == 2)%Q /\
    (162 <= sqdist (query example_input 0 0 0) (codeword example_vq 1))%Q /\
    (162 <= sqdist (query example_input 0 0 0) (codeword example_vq 2))%Q /\
    (162 <= sqdist (query example_input 0 0 0) (codeword example_vq 3))%Q.
Proof.
  eexists. split; [vm_compute; reflexivity|].
  cbn [indexes quantized shape data].
  repeat split; vm_compute; congruence.
Qed.

(** The same scenario at float32: every operation is exact on these small
    integers, index 0 is selected, the output is [0, 0] and the loss is
    1 + 0.25 * 1 = 1.25. *)
Example scenario_single_query_float32 :
  exists l,
    forward_locals (vq_to_float32 example_vq) (to_float32 example_input)
    = Ok l /\
    indexes l = [0] /\
    shape (quantized l) = [1; 2; 1; 1] /\
    data (quantized l) = [S754_zero false; S754_zero false] /\
    first_term l = Num f32_one /\
    second_term l = Num f32_one /\
    total_loss l = Num (S754_finite false 10485760 (-23)).
Proof.
  eexists. split; [vm_compute; reflexivity|].
  cbn [indexes quantized shape data first_term second_term total_loss].
  repeat split.
Qed.

(** Channel depth 3 with embedding dimension 2: three elements cannot be
    viewed as rows of two. *)
Example scenario_odd_channel_depth :
  forward example_vq example_odd_input = Raise RuntimeError.
Proof. reflexivity. Qed.

(** C1 as stated fails at float32.  With the codewords 4096 and 4097 and
    the query 4097, both computed distances are 0: the squares of 4097 and
    the product 4097 * 4097 round to 16785408, and every other operation is
    exact.  Index 0 is selected, at squared distance 1, although the
    codeword of index 1 is at distance 0. *)
Lemma nearest_codeword_not_selected :
  VQ_wf close_vq /\ tensor_wf close_input /\
  exists l,
    forward_locals close_vq close_input = Ok l /\
    selected_index l 1 1 0 0 0 = 0 /\
    (sqdist (map f32_value (query close_input 0 0 0))
            (map f32_value (codeword close_vq 0)) == 1)%Q /\
    (sqdist (map f32_value (query close_input 0 0 0))
            (map f32_value (codeword close_vq 1)) == 0)%Q /\
    (sqdist (map f32_value (query close_input 0 0 0))
            (map f32_value (codeword close_vq 1))
     < sqdist (map f32_value (query close_input 0 0 0))
              (map f32_value (codeword close_vq 0)))%Q /\
    computed_distance close_vq close_input 0 0 0 0 = S754_zero false /\
    computed_distance close_vq close_input 0 0 0 1 = S754_zero false /\
    (* the loss is 1.25, that of a quantization error of 1 *)
    total_loss l = Num (S754_finite false 10485760 (-23)).
Proof.
  split; [by_computation|]. split; [reflexivity|].
  eexists. split; [vm_compute; reflexivity|].
  repeat split; vm_compute; reflexivity.
Qed.

Lemma forward_selects_least_computed_distance_witness :
  (VQ_wf close_vq /\ embedding_dim close_vq = 1 /\
   shape close_input = [1; 1; 1; 1] /\ tensor_wf close_input) /\
  exists l,
    forward_locals close_vq close_input = Ok l /\
    length (indexes l) = 1 * 1 * 1 /\
    forall b h w, b < 1 -> h < 1 -> w < 1 ->
      let i := selected_index l 1 1 b h w in
      i < num_embeddings close_vq /\
      (forall k, k < num_embeddings close_vq ->
         (sval (computed_distance close_vq close_input b h w i)
          <= sval (computed_distance close_vq close_input b h w k))%Q) /\
      (forall k, k < i ->
         (sval (computed_distance close_vq close_input b h w i)
          < sval (computed_distance close_vq close_input b h w k))%Q).
Proof.
  split; [by_computation|].
  apply (forward_selects_least_computed_distance close_vq close_input
           1 1 1 1); by_computation.
Defined.

(** C2 as stated fails at float32.  With the one codeword 0.001 and the
    input 0.7, the difference 0.001 - 0.7 is rounded, and adding it to 0.7
    gives 8589824 * 2^-33 = 16777 / 2^24, which is not the codeword
    8589935 * 2^-33: the tensor returned does not hold the codebook row,
    while the product of the one-hot matrix with the codebook does. *)
Lemma straight_through_sum_is_rounded :
  VQ_wf small_vq /\ tensor_wf small_input /\
  exists l,
    forward_locals small_vq small_input = Ok l /\
    selected_index l 1 1 0 0 0 = 0 /\
    get2 (embedding_table small_vq) 0 0 = S754_finite false 8589935 (-33) /\
    get4 (quantized_bhwc l) 0 0 0 0 = S754_finite false 8589935 (-33) /\
    get4 (quantized l) 0 0 0 0 = S754_finite false 8589824 (-33) /\
    ~ same_number (get4 (quantized l) 0 0 0 0)
                  (get2 (embedding_table small_vq) 0 0) /\
    ~ (f32_value (get4 (quantized l) 0 0 0 0)
       == f32_value (get2 (embedding_table small_vq) 0 0))%Q.
Proof.
  split; [by_computation|]. split; [reflexivity|].
  eexists. split; [vm_compute; reflexivity|].
  do 4 (split; [vm_compute; reflexivity|]).
  split.
  - intros [E|[E _]]; vm_compute in E; discriminate.
  - intros E. vm_compute in E. discriminate.
Qed.

Lemma forward_returns_straight_through_sum_witness :
  (VQ_wf small_vq /\ embedding_dim small_vq = 1 /\
   shape small_input = [1; 1; 1; 1] /\ tensor_wf small_input /\
   Forall (fun v => f32_finite v = true) (data (embedding_table small_vq))) /\
  exists l,
    forward_locals small_vq small_input = Ok l /\
    forward small_vq small_input = Ok (quantized l, total_loss l) /\
    forall b d h w, b < 1 -> d < 1 -> h < 1 -> w < 1 ->
      let i := selected_index l 1 1 b h w in
      i < num_embeddings small_vq /\
      same_number (get4 (quantized_bhwc l) b h w d)
                  (get2 (embedding_table small_vq) i d) /\
      get4 (quantized l) b d h w
      = SFadd prec32 emax32 (get4 small_input b d h w)
          (SFsub prec32 emax32 (get4 (quantized_bhwc l) b h w d)
             (get4 small_input b d h w)).
Proof.
  assert (Hfin : Forall (fun v => f32_finite v = true)
                   (data (embedding_table small_vq)))
    by (repeat constructor).
  split;
    [split; [by_computation|];
     do 3 (split; [reflexivity|]); exact Hfin|].
  apply (forward_returns_straight_through_sum small_vq small_input 1 1 1 1);
    [by_computation|reflexivity|reflexivity|reflexivity|exact Hfin].
Defined.



Lemma forward_straight_through_gradient_witness :
  (VQ_wf (fst along_input) /\ embedding_dim (fst along_input) = 2 /\
   shape (snd along_input) = [1; 2; 1; 1] /\ tensor_wf (snd along_input)) /\
  exists l,
    forward_locals (fst along_input) (snd along_input) = Ok l /\
    forward (fst along_input) (snd along_input)
    = Ok (quantized l, total_loss l) /\
    shape (quantized l) = shape (snd along_input) /\
    forall b d h w, b < 1 -> d < 2 -> h < 1 -> w < 1 ->
      (tan (get4 (quantized l) b d h w)
       == tan (get4 (snd along_input) b d h w))%Q.
Proof.
  split; [by_computation|].
  apply (forward_straight_through_gradient
           (fst along_input) (snd along_input) 1 2 1 1);
    by_computation.
Defined.

(** C6 as stated fails: an input of channel depth 4 is accepted by a
    quantizer of embedding dimension 2. *)
Lemma forward_accepts_other_channel_depth :
  VQ_wf example_vq /\ tensor_wf example_wide_input /\
  dim example_wide_input 1 <> embedding_dim example_vq /\
  (exists q loss, forward example_vq example_wide_input = Ok (q, loss)) /\
  ~ raises (forward example_vq example_wide_input).
Proof.
  split; [by_computation|]. split; [reflexivity|].
  split; [vm_compute; lia|].
  split.
  - do 2 eexists. vm_compute. reflexivity.
  - intros (e & E). vm_compute in E. discriminate.
Qed.

Lemma forward_raises_iff_not_multiple_witness :
  (VQ_wf example_vq /\ shape example_odd_input = [1; 3; 1; 1] /\
   tensor_wf example_odd_input) /\
  (raises (forward example_vq example_odd_input) <->
   (1 * 3 * 1 * 1) mod embedding_dim example_vq <> 0) /\
  ((1 * 3 * 1 * 1) mod embedding_dim example_vq <> 0 ->
   forward example_vq example_odd_input = Raise RuntimeError).
Proof.
  split; [by_computation|].
  apply (forward_raises_iff_not_multiple example_vq example_odd_input
           1 3 1 1); by_computation.
Defined.

Lemma forward_preserves_shape_witness :
  (VQ_wf example_vq /\ embedding_dim example_vq = 2 /\
   shape example_input = [1; 2; 1; 1] /\ tensor_wf example_input) /\
  exists q loss,
    forward example_vq example_input = Ok (q, loss) /\
    shape q = shape example_input /\ tensor_wf q.
Proof.
  split; [by_computation|].
  apply (forward_preserves_shape example_vq example_input 1 2 1 1);
    by_computation.
Defined.

Lemma forward_on_empty_input_witness :
  (VQ_wf example_vq /\ embedding_dim example_vq = 2 /\
   shape example_empty_input = [0; 2; 1; 1] /\
   tensor_wf example_empty_input /\ 0 * 1 * 1 = 0) /\
  exists q,
    forward example_vq example_empty_input = Ok (q, NaN) /\
    shape q = shape example_empty_input /\ data q = [].
Proof.
  split; [by_computation|].
  apply (forward_on_empty_input example_vq example_empty_input 0 2 1 1);
    by_computation.
Defined.

Lemma conv_mask_types_differ_at_current_position_witness :
  (np_index 3 1 = Ok 1 /\ np_index 3 1 = Ok 1) /\
  exists maskA maskB,
    conv_mask_abstract 3 (1, 1)%Z "A" = Ok maskA /\
    conv_mask_abstract 3 (1, 1)%Z "B" = Ok maskB /\
    grid_dims 3 3 maskA /\ grid_dims 3 3 maskB /\
    grid_get maskB 1 1 = 1%Z /\
    grid_get maskA 1 1 = 0%Z /\
    forall i j, i < 3 -> j < 3 -> (i, j) <> (1, 1) ->
      grid_get maskB i j = grid_get maskA i j.
Proof.
  split; [by_computation|].
  apply (conv_mask_types_differ_at_current_position 3 1 1 1 1);
    reflexivity.
Defined.

(** ** Further properties of the quantizer *)

(** *** Flat positions and the two permutations *)

Lemma decompose2 (n m p : nat) :
  p < n * m -> exists i j, i < n /\ j < m /\ p = i * m + j.
Proof.
  intros Hp.
  assert (Hm : m <> 0) by (intros ->; lia).
  exists (p / m), (p mod m). repeat split.
  - apply Nat.Div0.div_lt_upper_bound. lia.
  - now apply Nat.mod_upper_bound.
  - rewrite (Nat.div_mod_eq p m) at 1. lia.
Qed.

Lemma decompose4 (n0 n1 n2 n3 p : nat) :
  p < n0 * n1 * n2 * n3 ->
  exists i0 i1 i2 i3,
    i0 < n0 /\ i1 < n1 /\ i2 < n2 /\ i3 < n3 /\
    p = ((i0 * n1 + i1) * n2 + i2) * n3 + i3.
Proof.
  intros Hp.
  destruct (decompose2 (n0 * n1 * n2) n3 p Hp) as (r & i3 & Hr & H3 & ->).
  destruct (decompose2 (n0 * n1) n2 r Hr) as (r' & i2 & Hr' & H2 & ->).
  destruct (decompose2 n0 n1 r' Hr') as (i0 & i1 & H0 & H1 & ->).
  exists i0, i1, i2, i3. repeat split; assumption.
Qed.

(** Tabulating the elements of a list in its own order gives the list. *)
Lemma tab4_nth_id {A : Type} (n0 n1 n2 n3 : nat) (l : list A) (d : A) :
  length l = n0 * n1 * n2 * n3 ->
  tab4 n0 n1 n2 n3
    (fun i0 i1 i2 i3 => nth (((i0 * n1 + i1) * n2 + i2) * n3 + i3) l d)
  = l.
Proof.
  intros Hl. apply (nth_ext _ _ d d).
  - now rewrite length_tab4.
  - intros p Hp. rewrite length_tab4 in Hp.
    destruct (decompose4 n0 n1 n2 n3 p Hp)
      as (i0 & i1 & i2 & i3 & H0 & H1 & H2 & H3 & ->).
    now rewrite nth_tab4.
Qed.

(** X1. The permutation to channel-last followed by the permutation back
    to channel-first returns the tensor, and so does the other order. *)
Theorem permute_round_trip {T : Type} {ST : Scalar T} (x : tensor T)
    (B C H W : nat) :
  shape x = [B; C; H; W] -> tensor_wf x ->
  exists e,
    permute_0231 x = Ok e /\ shape e = [B; H; W; C] /\ tensor_wf e /\
    permute_0312 e = Ok x.
Proof.
  intros Hx Hwf. destruct x as [xs xd]. cbn [shape] in Hx. subst xs.
  unfold tensor_wf in Hwf. cbn [shape data] in Hwf. rewrite numel4 in Hwf.
  eexists. split; [apply permute_0231_ok; reflexivity|].
  split; [reflexivity|]. split.
  - unfold tensor_wf. cbn [shape data]. rewrite length_tab4, numel4. lia.
  - rewrite (permute_0312_ok _ B H W C) by reflexivity.
    f_equal. f_equal.
    etransitivity; [|apply (tab4_nth_id B C H W xd (sconst 0%Q) Hwf)].
    apply (nth_ext _ _ (sconst 0%Q) (sconst 0%Q)).
    + now rewrite !length_tab4.
    + intros p Hp. rewrite length_tab4 in Hp.
      destruct (decompose4 B C H W p Hp)
        as (b & c & h & w & Hb & Hc & Hh & Hw & ->).
      rewrite !nth_tab4 by assumption.
      now rewrite get4_tab4.
Qed.

(** *** The loss as a function of the quantization error *)

Section ForwardFacts.
Context {T : Type} {ST : Scalar T}.

(** The channel-last tensors of a run and the loss terms built on them. *)
Lemma forward_channel_last (self : VQ T) (x : tensor T) (B C H W : nat) :
  VQ_wf self -> shape x = [B; C; H; W] ->
  (B * H * W * C) mod embedding_dim self = 0 ->
  exists l,
    forward_locals self x = Ok l /\
    shape (channel_last l) = [B; H; W; C] /\
    length (data (channel_last l)) = B * H * W * C /\
    (forall b h w c, b < B -> h < H -> w < W -> c < C ->
       get4 (channel_last l) b h w c = get4 x b c h w) /\
    shape (quantized_bhwc l) = [B; H; W; C] /\
    length (data (quantized_bhwc l)) = B * H * W * C /\
    first_term l = mse_loss (detach (quantized_bhwc l)) (channel_last l) /\
    second_term l = mse_loss (quantized_bhwc l) (detach (channel_last l)) /\
    total_loss l
    = loss_add (first_term l)
        (loss_scale (commitment_loss self) (second_term l)).
Proof.
  intros Hwf Hx Hmod.
  destruct (forward_locals_run self x B C H W Hwf Hx Hmod)
    as (e & f & p & ad & idx & enc & sel & qb & st & q &
        He & _ & _ & _ & _ & _ & Hsel & Hqb & _ & _ & Hrun).
  eexists. split; [exact Hrun|].
  cbn [channel_last quantized_bhwc first_term second_term total_loss].
  split; [now rewrite He|].
  split; [rewrite He; apply length_tab4|].
  split; [intros; rewrite He; now rewrite get4_tab4 by assumption|].
  split; [now rewrite Hqb|].
  split; [|repeat split].
  rewrite Hqb, Hsel. cbn [data]. rewrite length_tab2.
  apply Nat.Div0.div_exact in Hmod. lia.
Qed.
End ForwardFacts.


Lemma Qdivn_scale (s c : Q) (n : nat) :
  (Qdivn s n + c * Qdivn s n == (1 + c) * Qdivn s n)%Q.
Proof. ring. Qed.


(** *** What the returned loss sends to the encoder and to the codebook *)

Lemma mse_loss_Num {T : Type} {ST : Scalar T} (a b : tensor T) :
  0 < length (data a) -> length (data b) = length (data a) ->
  exists v, mse_loss a b = Num v.
Proof.
  intros Ha Hb. unfold mse_loss, mean.
  rewrite length_zip_with, Hb, Nat.min_id.
  destruct (length (data a)); [lia|]. now eexists.
Qed.

Lemma length_detach {T : Type} {ST : Scalar T} (t : tensor T) :
  length (data (detach t)) = length (data t).
Proof. unfold detach. cbn [data]. apply length_map. Qed.

(** X4. Along a direction of the encoder input that leaves the codebook
    in place, the derivative of the returned loss is the derivative of the
    first term alone: the weight beta does not reach the encoder. *)
Theorem loss_gradient_to_encoder_unweighted (self : VQ dual)
    (x : tensor dual) (B C H W : nat) :
  VQ_wf self -> shape x = [B; C; H; W] -> tensor_wf x ->
  (B * H * W * C) mod embedding_dim self = 0 ->
  0 < B * H * W * C ->
  zero_tangent (data (embedding_table self)) ->
  exists l t1 t,
    forward_locals self x = Ok l /\
    loss_tan (first_term l) = Some t1 /\
    loss_tan (total_loss l) = Some t /\
    (t == t1)%Q.
Proof.
  intros Hwf Hx _ Hmod Hpos Hz.
  destruct (forward_channel_last self x B C H W Hwf Hx Hmod)
    as (l & Hrun & _ & Hel & _ & _ & Hql & H1 & H2 & Ht).
  destruct (second_term_ignores_encoder self x B C H W Hwf Hx Hmod Hz)
    as (l' & Hrun' & H0).
  rewrite Hrun in Hrun'. apply Ok_inj in Hrun'. subst l'.
  destruct (mse_loss_Num (detach (quantized_bhwc l)) (channel_last l))
    as (v1 & E1); [rewrite length_detach; lia|rewrite length_detach; lia|].
  destruct (mse_loss_Num (quantized_bhwc l) (detach (channel_last l)))
    as (v2 & E2); [lia|rewrite length_detach; lia|].
  rewrite <- H1 in E1. rewrite <- H2 in E2.
  rewrite E2 in H0. cbn [loss_tan0] in H0. unfold tan0 in H0.
  exists l. do 2 eexists. split; [assumption|].
  rewrite Ht, E1, E2. cbn [loss_add loss_scale loss_tan].
  split; [reflexivity|]. split; [reflexivity|].
  cbn [sadd smul sconst Scalar_dual tan val]. rewrite H0. ring.
Qed.

(** X5. Along a direction of the codebook that leaves the encoder input in
    place, the derivative of the returned loss is beta times the derivative
    of the second term: the codebook is what beta weighs. *)
Theorem loss_gradient_to_codebook_weighted (self : VQ dual)
    (x : tensor dual) (B C H W : nat) :
  VQ_wf self -> shape x = [B; C; H; W] -> tensor_wf x ->
  (B * H * W * C) mod embedding_dim self = 0 ->
  0 < B * H * W * C ->
  zero_tangent (data x) ->
  exists l t2 t,
    forward_locals self x = Ok l /\
    loss_tan (second_term l) = Some t2 /\
    loss_tan (total_loss l) = Some t /\
    (t == commitment_loss self * t2)%Q.
Proof.
  intros Hwf Hx _ Hmod Hpos Hz.
  destruct (forward_channel_last self x B C H W Hwf Hx Hmod)
    as (l & Hrun & _ & Hel & _ & _ & Hql & H1 & H2 & Ht).
  destruct (first_term_ignores_codebook self x B C H W Hwf Hx Hmod Hz)
    as (l' & Hrun' & H0).
  rewrite Hrun in Hrun'. apply Ok_inj in Hrun'. subst l'.
  destruct (mse_loss_Num (detach (quantized_bhwc l)) (channel_last l))
    as (v1 & E1); [rewrite length_detach; lia|rewrite length_detach; lia|].
  destruct (mse_loss_Num (quantized_bhwc l) (detach (channel_last l)))
    as (v2 & E2); [lia|rewrite length_detach; lia|].
  rewrite <- H1 in E1. rewrite <- H2 in E2.
  rewrite E1 in H0. cbn [loss_tan0] in H0. unfold tan0 in H0.
  exists l. do 2 eexists. split; [assumption|].
  rewrite Ht, E1, E2. cbn [loss_add loss_scale loss_tan].
  split; [reflexivity|]. split; [reflexivity|].
  cbn [sadd smul sconst Scalar_dual tan val]. rewrite H0. ring.
Qed.

(** *** The loss at float32 *)

Lemma detach_float32 (t : tensor f32) : detach t = t.
Proof. destruct t as [s d]. unfold detach. cbn. now rewrite map_id. Qed.

(** X19. At float32 the two loss terms are the same float, the mean squared
    error between the quantized and the channel-last input as float32
    computes it, and on a non-empty accepted input the loss returned is
    [v + beta * v] with the product and the sum each rounded; on an input
    with no element it is NaN. *)
Theorem forward_loss_at_float32 (self : VQ f32) (x : tensor f32)
    (B C H W : nat) :
  VQ_wf self -> shape x = [B; C; H; W] -> tensor_wf x ->
  (B * H * W * C) mod embedding_dim self = 0 ->
  exists l,
    forward_locals self x = Ok l /\
    first_term l = second_term l /\
    first_term l = mse_loss (quantized_bhwc l) (channel_last l) /\
    (0 < B * H * W * C ->
     exists v,
       first_term l = Num v /\
       total_loss l
       = Num (SFadd prec32 emax32 v
                (SFmul prec32 emax32 (f32_of_Q (commitment_loss self)) v))) /\
    (B * H * W * C = 0 -> first_term l = NaN /\ total_loss l = NaN).
Proof.
  intros Hwf Hx _ Hmod.
  destruct (forward_channel_last self x B C H W Hwf Hx Hmod)
    as (l & Hrun & _ & Hel & _ & _ & Hql & H1 & H2 & Ht).
  rewrite detach_float32 in H1, H2.
  exists l. split; [assumption|]. split; [congruence|].
  split; [assumption|]. split.
  - intros Hpos.
    destruct (mse_loss_Num (quantized_bhwc l) (channel_last l))
      as (v & Ev); [lia|lia|].
    exists v. split; [congruence|].
    rewrite Ht, H2, H1, Ev. reflexivity.
  - intros H0.
    assert (E : mse_loss (quantized_bhwc l) (channel_last l) = NaN).
    { unfold mse_loss.
      replace (data (channel_last l)) with (@nil f32)
        by (symmetry; apply length_zero_iff_nil; lia).
      now rewrite zip_with_nil_r. }
    split; [congruence|].
    rewrite Ht, H1, E. reflexivity.
Qed.

(** ** Further properties of the masks *)

Lemma grid_get_zeros (n m i j : nat) :
  grid_get (repeat (repeat 0%Z m) n) i j = 0%Z.
Proof.
  unfold grid_get.
  destruct (Nat.lt_ge_cases i n) as [Hi|Hi].
  - rewrite (nth_indep _ [] (repeat 0%Z m)) by now rewrite repeat_length.
    rewrite nth_repeat. apply nth_repeat.
  - rewrite (nth_overflow (repeat _ n)) by now rewrite repeat_length.
    now destruct j.
Qed.

(** The inner loop over the columns [js] of row [i]. *)
Lemma mask_inner_loop (n m : nat) (x y : Z) (i : nat) (js : list nat)
    (g : grid) :
  grid_dims n m g -> i < n -> Forall (fun j => j < m) js ->
  let g' :=
    fold_left (fun g j =>
      if ((Z.of_nat j <? x) || (Z.of_nat i <? y))%Z
      then grid_set g i j 1%Z else g) js g in
  grid_dims n m g' /\
  forall i' j',
    grid_get g' i' j'
    = if (i' =? i) && existsb (Nat.eqb j') js
         && ((Z.of_nat j' <? x) || (Z.of_nat i' <? y))%Z
      then 1%Z else grid_get g i' j'.
Proof.
  intros Hg Hi Hjs. revert g Hg.
  induction Hjs as [|j js Hj _ IH]; intros g Hg; cbn [fold_left].
  - split; [assumption|]. intros. cbn [existsb].
    now rewrite andb_false_r.
  - set (g1 := if ((Z.of_nat j <? x) || (Z.of_nat i <? y))%Z
               then grid_set g i j 1%Z else g).
    assert (Hg1 : grid_dims n m g1).
    { unfold g1. destruct (_ || _)%Z; [now apply grid_dims_set|assumption]. }
    destruct (IH g1 Hg1) as (Hd & Hget). split; [exact Hd|].
    intros i' j'. rewrite Hget. cbn [existsb].
    assert (E1 : grid_get g1 i' j'
                 = if (i' =? i) && (j' =? j)
                      && ((Z.of_nat j <? x) || (Z.of_nat i <? y))%Z
                   then 1%Z else grid_get g i' j').
    { unfold g1. destruct ((Z.of_nat j <? x) || (Z.of_nat i <? y))%Z.
      - rewrite (grid_get_set n m) by assumption. now rewrite andb_true_r.
      - now rewrite andb_false_r. }
    rewrite E1.
    destruct (Nat.eqb_spec i' i) as [Ei|Ei]; cbn [andb]; [|reflexivity].
    destruct (Nat.eqb_spec j' j) as [Ej|Ej]; cbn [andb orb];
      [|reflexivity].
    rewrite Ei, Ej.
    destruct ((Z.of_nat j <? x) || (Z.of_nat i <? y))%Z.
    + now destruct (existsb (Nat.eqb j) js).
    + now rewrite andb_false_r.
Qed.

(** The two loops over the rows [rows] and all [m] columns. *)
Lemma mask_outer_loop (n m : nat) (x y : Z) (rows : list nat) (g : grid) :
  grid_dims n m g -> Forall (fun i => i < n) rows ->
  let g' :=
    fold_left (fun g i =>
      fold_left (fun g j =>
        if ((Z.of_nat j <? x) || (Z.of_nat i <? y))%Z
        then grid_set g i j 1%Z else g) (seq 0 m) g) rows g in
  grid_dims n m g' /\
  forall i' j', j' < m ->
    grid_get g' i' j'
    = if existsb (Nat.eqb i') rows
         && ((Z.of_nat j' <? x) || (Z.of_nat i' <? y))%Z
      then 1%Z else grid_get g i' j'.
Proof.
  intros Hg Hrows. revert g Hg.
  assert (Hcols : Forall (fun j => j < m) (seq 0 m)).
  { apply Forall_forall. intros j Hj. apply in_seq in Hj. lia. }
  induction Hrows as [|i rows Hi _ IH]; intros g Hg; cbn [fold_left].
  - split; [assumption|]. intros. reflexivity.
  - destruct (mask_inner_loop n m x y i (seq 0 m) g Hg Hi Hcols)
      as (Hg1 & Hget1).
    set (g1 := fold_left _ (seq 0 m) g) in *.
    destruct (IH g1 Hg1) as (Hd & Hget). split; [exact Hd|].
    intros i' j' Hj'. rewrite Hget by assumption. rewrite Hget1.
    assert (Ein : existsb (Nat.eqb j') (seq 0 m) = true).
    { apply existsb_exists. exists j'. split; [apply in_seq; lia|].
      apply Nat.eqb_refl. }
    rewrite Ein, andb_true_r. cbn [existsb].
    destruct (Nat.eqb_spec i' i) as [->|]; cbn [andb orb]; [|reflexivity].
    destruct ((Z.of_nat j' <? x) || (Z.of_nat i <? y))%Z.
    + now destruct (existsb (Nat.eqb i) rows).
    + now rewrite andb_false_r.
Qed.

Lemma mask_loops_entries (size : nat) (x y : Z) (i j : nat) :
  i < size -> j < size ->
  grid_get
    (fold_left (fun g i =>
       fold_left (fun g j =>
         if ((Z.of_nat j <? x) || (Z.of_nat i <? y))%Z
         then grid_set g i j 1%Z else g) (seq 0 size) g)
       (seq 0 size) (repeat (repeat 0%Z size) size)) i j
  = if ((Z.of_nat j <? x) || (Z.of_nat i <? y))%Z then 1%Z else 0%Z.
Proof.
  intros Hi Hj.
  assert (Hrows : Forall (fun i => i < size) (seq 0 size)).
  { apply Forall_forall. intros k Hk. apply in_seq in Hk. lia. }
  destruct (mask_outer_loop size size x y (seq 0 size) _
              (grid_dims_zeros size size) Hrows) as (_ & Hget).
  rewrite Hget by assumption.
  assert (Ein : existsb (Nat.eqb i) (seq 0 size) = true).
  { apply existsb_exists. exists i. split; [apply in_seq; lia|].
    apply Nat.eqb_refl. }
  rewrite Ein, grid_get_zeros. reflexivity.
Qed.

(** Every entry of a returned mask. *)
Lemma conv_mask_entries_of (size : nat) (x y : Z) (mask_type : string)
    (row col : nat) :
  np_index size y = Ok row -> np_index size x = Ok col ->
  exists mask,
    conv_mask_abstract size (x, y) mask_type = Ok mask /\
    grid_dims size size mask /\
    forall i j, i < size -> j < size ->
      grid_get mask i j
      = if (i =? row) && (j =? col)
        then (if String.eqb mask_type "B" then 1%Z else 0%Z)
        else if ((Z.of_nat j <? x) || (Z.of_nat i <? y))%Z then 1%Z
             else 0%Z.
Proof.
  intros Hy Hx.
  pose proof (np_index_lt _ _ _ Hy) as Hrow.
  pose proof (np_index_lt _ _ _ Hx) as Hcol.
  pose proof (mask_loops_dims size x y) as Hg.
  pose proof (mask_loops_entries size x y) as Hent.
  unfold conv_mask_abstract.
  set (g := fold_left _ _ _) in *.
  assert (Hs : forall v,
            grid_setitem g y x v = Ok (grid_set g row col v)).
  { intros v. unfold grid_setitem. pose proof Hg as (Hlen & _).
    rewrite Hlen, Hy. cbn [bind].
    now rewrite (grid_dims_row size size g row Hg Hrow), Hx. }
  exists (grid_set g row col
            (if String.eqb mask_type "B" then 1%Z else 0%Z)).
  split; [destruct (String.eqb mask_type "B"); apply Hs|].
  split; [now apply grid_dims_set|].
  intros i j Hi Hj.
  rewrite (grid_get_set size size) by assumption.
  destruct ((i =? row) && (j =? col)); [reflexivity|].
  now apply Hent.
Qed.

Lemma np_index_Ok_iff (n : nat) (i : Z) :
  (exists k, np_index n i = Ok k) <-> (- Z.of_nat n <= i < Z.of_nat n)%Z.
Proof.
  unfold np_index.
  destruct ((0 <=? i) && (i <? Z.of_nat n))%Z eqn:E1.
  - split; [lia|]. intros _. now eexists.
  - destruct ((- Z.of_nat n <=? i) && (i <? 0))%Z eqn:E2.
    + split; [lia|]. intros _. now eexists.
    + split; [intros (k & Hk); discriminate|lia].
Qed.

(** X7. A mask is returned exactly when both coordinates of the current
    position lie in [-size, size); otherwise the call raises. *)
Theorem conv_mask_returns_iff_in_range (size : nat) (x y : Z)
    (mask_type : string) :
  ((exists mask, conv_mask_abstract size (x, y) mask_type = Ok mask) <->
   (- Z.of_nat size <= x < Z.of_nat size)%Z /\
   (- Z.of_nat size <= y < Z.of_nat size)%Z) /\
  (raises (conv_mask_abstract size (x, y) mask_type) <->
   ~ ((- Z.of_nat size <= x < Z.of_nat size)%Z /\
      (- Z.of_nat size <= y < Z.of_nat size)%Z)).
Proof.
  assert (Hok : (- Z.of_nat size <= x < Z.of_nat size)%Z /\
                (- Z.of_nat size <= y < Z.of_nat size)%Z ->
                exists mask,
                  conv_mask_abstract size (x, y) mask_type = Ok mask).
  { intros (Hx & Hy).
    apply np_index_Ok_iff in Hx as (col & Hx).
    apply np_index_Ok_iff in Hy as (row & Hy).
    destruct (conv_mask_entries_of size x y mask_type row col Hy Hx)
      as (mask & Hm & _).
    now exists mask. }
  assert (Hraise : ~ ((- Z.of_nat size <= x < Z.of_nat size)%Z /\
                      (- Z.of_nat size <= y < Z.of_nat size)%Z) ->
                   raises (conv_mask_abstract size (x, y) mask_type)).
  { intros Hout. apply conv_mask_out_of_range.
    destruct (np_index size y) as [row|e] eqn:Ey;
      [|left; apply raises_Raise].
    destruct (np_index size x) as [col|e] eqn:Ex;
      [|right; apply raises_Raise].
    exfalso. apply Hout. split; apply np_index_Ok_iff; eexists; eassumption. }
  split; split.
  - intros (mask & Hm).
    destruct (Z_lt_le_dec x (Z.of_nat size)), (Z_le_gt_dec (- Z.of_nat size) x),
             (Z_lt_le_dec y (Z.of_nat size)), (Z_le_gt_dec (- Z.of_nat size) y);
      try lia;
      (assert (Hout : ~ ((- Z.of_nat size <= x < Z.of_nat size)%Z /\
                         (- Z.of_nat size <= y < Z.of_nat size)%Z)) by lia;
       destruct (Hraise Hout) as (e & He); congruence).
  - exact Hok.
  - intros (e & He) Hin. destruct (Hok Hin) as (mask & Hm). congruence.
  - exact Hraise.
Qed.

(** X8. Entries that come after the current position in raster order are
    let through as well: below the current row, every entry to the left of
    the current column is 1, in both types of mask. *)
Theorem conv_mask_lets_later_rows_through (size : nat) (x y : nat)
    (mask_type : string) (i j : nat) :
  x < size -> y < i -> i < size -> j < x ->
  exists mask,
    conv_mask_abstract size (Z.of_nat x, Z.of_nat y) mask_type = Ok mask /\
    grid_get mask i j = 1%Z.
Proof.
  intros Hx Hy Hi Hj.
  assert (Ey : np_index size (Z.of_nat y) = Ok y).
  { unfold np_index.
    replace ((0 <=? Z.of_nat y) && (Z.of_nat y <? Z.of_nat size))%Z
      with true by (symmetry; apply andb_true_iff; lia).
    now rewrite Nat2Z.id. }
  assert (Ex : np_index size (Z.of_nat x) = Ok x).
  { unfold np_index.
    replace ((0 <=? Z.of_nat x) && (Z.of_nat x <? Z.of_nat size))%Z
      with true by (symmetry; apply andb_true_iff; lia).
    now rewrite Nat2Z.id. }
  destruct (conv_mask_entries_of size (Z.of_nat x) (Z.of_nat y) mask_type
              y x Ey Ex) as (mask & Hm & _ & Hent).
  exists mask. split; [assumption|].
  rewrite Hent by lia.
  destruct (Nat.eqb_spec i y); [lia|]. cbn [andb].
  replace (Z.of_nat j <? Z.of_nat x)%Z with true
    by (symmetry; apply Z.ltb_lt; lia).
  reflexivity.
Qed.

(** ** The constructor of the quantizer *)

Lemma inject_nat_pos (n : nat) : 0 < n -> (0 < inject_Z (Z.of_nat n))%Q.
Proof. intros Hn. unfold Qlt. simpl. lia. Qed.

Lemma py_div_by_nat (a : Q) (n : nat) :
  py_div a (inject_Z (Z.of_nat n))
  = match n with
    | 0 => inr ZeroDivisionError
    | S _ => inl (a / inject_Z (Z.of_nat n))%Q
    end.
Proof.
  unfold py_div. destruct n as [|n]; [reflexivity|].
  destruct (Qeq_bool (inject_Z (Z.of_nat (S n))) 0) eqn:E; [|reflexivity].
  apply Qeq_bool_eq in E.
  pose proof (inject_nat_pos (S n) ltac:(lia)). lra.
Qed.

Section VQInitFacts.
Variable normal : nat -> Q.
Variable rand : nat -> Q.

(** The constructor with a positive number of embeddings. *)
Lemma VQ_init_positive (K D : nat) (beta : Q) :
  0 < K ->
  VQ_init normal rand K D beta
  = inl {| num_embeddings := K;
           embedding_dim := D;
           embedding_table :=
             uniform_ rand (Embedding normal K D)
               (-1 / inject_Z (Z.of_nat K)) (1 / inject_Z (Z.of_nat K));
           commitment_loss := beta |}.
Proof.
  intros HK. unfold VQ_init. rewrite !py_div_by_nat.
  destruct K; [lia|reflexivity].
Qed.

Lemma VQ_init_wf (K D : nat) (beta : Q) (vq : VQ Q) :
  0 < K -> 0 < D -> VQ_init normal rand K D beta = inl vq ->
  VQ_wf vq /\ num_embeddings vq = K /\ embedding_dim vq = D /\
  commitment_loss vq = beta.
Proof.
  intros HK HD E. rewrite VQ_init_positive in E by assumption.
  injection E as <-. unfold VQ_wf, tensor_wf, uniform_, Embedding.
  cbn [num_embeddings embedding_dim embedding_table commitment_loss
       shape data].
  rewrite !length_tab1, numel2. repeat split; assumption.
Qed.

(** X9. With positive sizes the constructor returns, and what it returns
    is a quantizer with the given sizes and commitment weight whose codebook
    has shape (K, D) and K * D elements: the state that [forward] is
    specified on. *)
Theorem VQ_init_builds_codebook (K D : nat) (beta : Q) :
  0 < K -> 0 < D ->
  exists vq,
    VQ_init normal rand K D beta = inl vq /\
    VQ_wf vq /\
    num_embeddings vq = K /\ embedding_dim vq = D /\
    commitment_loss vq = beta /\
    shape (embedding_table vq) = [K; D] /\
    length (data (embedding_table vq)) = K * D.
Proof.
  intros HK HD.
  eexists. split; [now apply VQ_init_positive|].
  destruct (VQ_init_wf K D beta _ HK HD (VQ_init_positive K D beta HK))
    as (Hwf & HK' & HD' & Hb).
  repeat (split; [assumption|]).
  cbn [embedding_table]. unfold uniform_, Embedding. cbn [shape data].
  now rewrite !length_tab1.
Qed.

(** X10. The constructor raises [ZeroDivisionError] exactly when the number
    of embeddings is 0. *)
Theorem VQ_init_raises_iff_no_embedding (K D : nat) (beta : Q) :
  VQ_init normal rand K D beta = inr ZeroDivisionError <-> K = 0.
Proof.
  split.
  - intros E. destruct K as [|K]; [reflexivity|].
    rewrite VQ_init_positive in E by lia. discriminate.
  - intros ->. reflexivity.
Qed.
End VQInitFacts.

(** With three codewords the lower bound -1/3 reaches the tensor as the
    float32 -11184811/33554432, and a draw at the lower end of the interval
    is that value: an entry of the codebook can lie below -1/K. *)
Example codebook_entry_below_bound :
  exists vq,
    VQ_init (fun _ => 0%Q) (fun _ => 0%Q) 3 1 (1 # 4) = inl vq /\
    (get2 (embedding_table vq) 0 0 == -11184811 # 33554432)%Q /\
    (get2 (embedding_table vq) 0 0 < -1 / inject_Z (Z.of_nat 3))%Q.
Proof.
  eexists. split; [reflexivity|].
  split; vm_compute; reflexivity.
Qed.

(** ** The shapes through the encoder and the decoder *)

(** A convolution of kernel 4, stride 2 and padding 1 halves the height
    and the width, rounding down, and needs both to be at least 2. *)
Lemma conv_4_2_1 (training : bool) (cin cout b h w : nat) :
  layer_shape training (Conv2d cin cout 4 2 1) (b, cin, h, w)
  = if (2 <=? h) && (2 <=? w) then Ok (b, cout, h / 2, w / 2)
    else Raise RuntimeError.
Proof.
  unfold layer_shape. rewrite Nat.eqb_refl. cbn [andb].
  destruct (Nat.leb_spec 2 h) as [Hh|Hh], (Nat.leb_spec 2 w) as [Hw|Hw];
    cbn [andb].
  - replace (4 <=? h + 2 * 1) with true by (symmetry; apply Nat.leb_le; lia).
    replace (4 <=? w + 2 * 1) with true by (symmetry; apply Nat.leb_le; lia).
    cbn [andb]. f_equal. f_equal; [f_equal|].
    + replace (h + 2 * 1 - 4) with (h - 2) by lia.
      replace h with (1 * 2 + (h - 2)) at 2 by lia.
      rewrite Nat.div_add_l by lia. lia.
    + replace (w + 2 * 1 - 4) with (w - 2) by lia.
      replace w with (1 * 2 + (w - 2)) at 2 by lia.
      rewrite Nat.div_add_l by lia. lia.
  - replace (4 <=? w + 2 * 1) with false
      by (symmetry; apply Nat.leb_gt; lia).
    now rewrite andb_false_r.
  - replace (4 <=? h + 2 * 1) with false
      by (symmetry; apply Nat.leb_gt; lia).
    reflexivity.
  - replace (4 <=? h + 2 * 1) with false
      by (symmetry; apply Nat.leb_gt; lia).
    reflexivity.
Qed.

(** A transposed convolution of kernel 4, stride 2 and padding 1 doubles
    the height and the width. *)
Lemma conv_transpose_4_2_1 (training : bool) (cin cout b h w : nat) :
  1 <= h -> 1 <= w ->
  layer_shape training (ConvTranspose2d cin cout 4 2 1) (b, cin, h, w)
  = Ok (b, cout, 2 * h, 2 * w).
Proof.
  intros Hh Hw. unfold layer_shape. rewrite Nat.eqb_refl.
  replace (1 <=? h) with true by (symmetry; apply Nat.leb_le; lia).
  replace (1 <=? w) with true by (symmetry; apply Nat.leb_le; lia).
  replace (2 * 1 <? (h - 1) * 2 + 4) with true
    by (symmetry; apply Nat.ltb_lt; lia).
  replace (2 * 1 <? (w - 1) * 2 + 4) with true
    by (symmetry; apply Nat.ltb_lt; lia).
  cbn [andb]. f_equal. f_equal; [f_equal|]; lia.
Qed.

Lemma batch_norm_ok (training : bool) (n b h w : nat) :
  b * h * w <> 1 ->
  layer_shape training (BatchNorm2d n) (b, n, h, w) = Ok (b, n, h, w).
Proof.
  intros Hne. unfold layer_shape. rewrite Nat.eqb_refl. cbn [negb].
  destruct (Nat.eqb_spec (b * h * w) 1); [contradiction|].
  now rewrite andb_false_r.
Qed.

Lemma batch_norm_cases (training : bool) (n b h w : nat) :
  layer_shape training (BatchNorm2d n) (b, n, h, w) = Ok (b, n, h, w) \/
  layer_shape training (BatchNorm2d n) (b, n, h, w) = Raise ValueError.
Proof.
  unfold layer_shape. rewrite Nat.eqb_refl. cbn [negb].
  destruct (training && (b * h * w =? 1)); auto.
Qed.

Lemma product_not_one (b h w : nat) : 2 <= h -> b * h * w <> 1.
Proof.
  intros Hh E. apply Nat.eq_mul_1 in E as (E & _).
  apply Nat.eq_mul_1 in E as (_ & E). lia.
Qed.

Lemma div8 (n : nat) : n / 2 / 2 / 2 = n / 8.
Proof. now rewrite !Nat.Div0.div_div. Qed.

Lemma le_half (n m : nat) : 2 * m <= n -> m <= n / 2.
Proof. intros H. apply Nat.div_le_lower_bound; lia. Qed.

Lemma half_lt (n m : nat) : n < 2 * m -> n / 2 < m.
Proof. intros H. apply Nat.Div0.div_lt_upper_bound. lia. Qed.

Lemma seq_conv_4_2_1 (training : bool) (cin cout : nat) (rest : list layer)
    (b h w : nat) :
  sequential_shape training (Conv2d cin cout 4 2 1 :: rest) (b, cin, h, w)
  = if (2 <=? h) && (2 <=? w)
    then sequential_shape training rest (b, cout, h / 2, w / 2)
    else Raise RuntimeError.
Proof.
  cbn [sequential_shape]. rewrite conv_4_2_1.
  now destruct ((2 <=? h) && (2 <=? w)).
Qed.

Lemma seq_conv_transpose_4_2_1 (training : bool) (cin cout : nat)
    (rest : list layer) (b h w : nat) :
  1 <= h -> 1 <= w ->
  sequential_shape training (ConvTranspose2d cin cout 4 2 1 :: rest)
    (b, cin, h, w)
  = sequential_shape training rest (b, cout, 2 * h, 2 * w).
Proof.
  intros Hh Hw. cbn [sequential_shape].
  now rewrite conv_transpose_4_2_1 by assumption.
Qed.

Lemma seq_batch_norm (training : bool) (n : nat) (rest : list layer)
    (b h w : nat) :
  b * h * w <> 1 ->
  sequential_shape training (BatchNorm2d n :: rest) (b, n, h, w)
  = sequential_shape training rest (b, n, h, w).
Proof.
  intros Hne. cbn [sequential_shape]. now rewrite batch_norm_ok.
Qed.

Lemma seq_leaky (training : bool) (a : Q) (rest : list layer) (s : shape4) :
  sequential_shape training (LeakyReLU a :: rest) s
  = sequential_shape training rest s.
Proof. destruct s as [[[b c] h] w]. reflexivity. Qed.

Lemma seq_last_activation (training : bool) (l : layer) (s : shape4) :
  l = Sigmoid \/ l = Tanh -> sequential_shape training [l] s = Ok s.
Proof. destruct s as [[[b c] h] w]. now intros [-> | ->]. Qed.

Lemma leb_true (n m : nat) : n <= m -> (n <=? m) = true.
Proof. apply Nat.leb_le. Qed.

(** The encoder on images of height and width at least 8. *)
Lemma Encoder_shape_of (training : bool) (B H W : nat) :
  8 <= H -> 8 <= W ->
  sequential_shape training Encoder (B, 3, H, W)
  = Ok (B, latent_space, H / 8, W / 8).
Proof.
  intros HH HW. unfold Encoder.
  pose proof (le_half H 4 ltac:(lia)) as H1.
  pose proof (le_half W 4 ltac:(lia)) as W1.
  pose proof (le_half (H / 2) 2 ltac:(lia)) as H2.
  pose proof (le_half (W / 2) 2 ltac:(lia)) as W2.
  rewrite (seq_conv_4_2_1 training 3 64 _ B H W).
  rewrite !leb_true by lia. cbn [andb].
  rewrite (seq_batch_norm training 64 _ B (H / 2) (W / 2))
    by (apply product_not_one; lia).
  rewrite seq_leaky.
  rewrite (seq_conv_4_2_1 training 64 128 _ B (H / 2) (W / 2)).
  rewrite !leb_true by lia. cbn [andb].
  rewrite (seq_batch_norm training 128 _ B (H / 2 / 2) (W / 2 / 2))
    by (apply product_not_one; lia).
  rewrite seq_leaky.
  rewrite (seq_conv_4_2_1 training 128 latent_space _ B
             (H / 2 / 2) (W / 2 / 2)).
  rewrite !leb_true by lia. cbn [andb].
  rewrite seq_last_activation by now left.
  now rewrite !div8.
Qed.

Lemma seq_batch_norm_raises (training : bool) (n b h w : nat)
    (rest : list layer) :
  raises (sequential_shape training rest (b, n, h, w)) ->
  raises (sequential_shape training (BatchNorm2d n :: rest) (b, n, h, w)).
Proof.
  intros Hr. cbn [sequential_shape].
  destruct (batch_norm_cases training n b h w) as [-> | ->]; cbn [bind];
    [assumption|apply raises_Raise].
Qed.

(** The encoder on smaller images. *)
Lemma Encoder_raises_of (training : bool) (B H W : nat) :
  H < 8 \/ W < 8 ->
  raises (sequential_shape training Encoder (B, 3, H, W)).
Proof.
  intros Hsmall. unfold Encoder.
  rewrite (seq_conv_4_2_1 training 3 64 _ B H W).
  destruct (Nat.leb_spec 2 H) as [HH|HH], (Nat.leb_spec 2 W) as [HW|HW];
    cbn [andb]; try apply raises_Raise.
  apply seq_batch_norm_raises. rewrite seq_leaky.
  rewrite (seq_conv_4_2_1 training 64 128 _ B (H / 2) (W / 2)).
  destruct (Nat.leb_spec 2 (H / 2)) as [HH2|HH2],
           (Nat.leb_spec 2 (W / 2)) as [HW2|HW2];
    cbn [andb]; try apply raises_Raise.
  apply seq_batch_norm_raises. rewrite seq_leaky.
  rewrite (seq_conv_4_2_1 training 128 latent_space _ B
             (H / 2 / 2) (W / 2 / 2)).
  destruct (Nat.leb_spec 2 (H / 2 / 2)) as [HH3|HH3],
           (Nat.leb_spec 2 (W / 2 / 2)) as [HW3|HW3];
    cbn [andb]; try apply raises_Raise.
  exfalso. rewrite !Nat.Div0.div_div in HH3, HW3.
  destruct Hsmall as [Hs|Hs].
  - assert (H / (2 * 2) < 2) by (apply Nat.Div0.div_lt_upper_bound; lia).
    lia.
  - assert (W / (2 * 2) < 2) by (apply Nat.Div0.div_lt_upper_bound; lia).
    lia.
Qed.

(** The decoder on a latent grid with at least one position. *)
Lemma Decoder_shape_of (training : bool) (B h w : nat) :
  1 <= h -> 1 <= w ->
  sequential_shape training Decoder (B, latent_space, h, w)
  = Ok (B, 3, 8 * h, 8 * w).
Proof.
  intros Hh Hw. unfold Decoder.
  rewrite (seq_conv_transpose_4_2_1 training latent_space 128 _ B h w)
    by assumption.
  rewrite (seq_batch_norm training 128 _ B (2 * h) (2 * w))
    by (apply product_not_one; lia).
  rewrite seq_leaky.
  rewrite (seq_conv_transpose_4_2_1 training 128 64 _ B (2 * h) (2 * w))
    by lia.
  rewrite (seq_batch_norm training 64 _ B (2 * (2 * h)) (2 * (2 * w)))
    by (apply product_not_one; lia).
  rewrite seq_leaky.
  rewrite (seq_conv_transpose_4_2_1 training 64 3 _ B
             (2 * (2 * h)) (2 * (2 * w))) by lia.
  rewrite seq_last_activation by now right.
  f_equal. f_equal; [f_equal|]; lia.
Qed.

(** ** The autoencoder around the quantizer *)

Lemma zero_network_follows_shapes (training : bool) (layers : list layer) :
  follows_shapes training layers (zero_network training layers).
Proof.
  intros x b c h w Hx _. unfold zero_network. rewrite Hx.
  destruct (sequential_shape training layers (b, c, h, w))
    as [[[[b' c'] h'] w']|e]; cbn [bind]; [|reflexivity].
  eexists. split; [reflexivity|]. split; [reflexivity|].
  unfold tensor_wf. cbn [shape data]. now rewrite repeat_length, numel4.
Qed.




(** X15. On images of height or width below 8 the autoencoder raises, in
    the encoder, whatever the quantizer and the decoder. *)
Theorem VQVAE_forward_raises_below_8 (training : bool)
    (encoder decoder : tensor Q -> result (tensor Q)) (vq : VQ Q)
    (x : tensor Q) (B H W : nat) :
  follows_shapes training Encoder encoder ->
  shape x = [B; 3; H; W] -> tensor_wf x ->
  H < 8 \/ W < 8 ->
  raises (encoder x) /\ raises (VQVAE_forward encoder decoder vq x).
Proof.
  intros Henc Hx Hxwf Hsmall.
  specialize (Henc x B 3 H W Hx Hxwf).
  destruct (Encoder_raises_of training B H W Hsmall) as (e & He).
  rewrite He in Henc.
  split; [now exists e|].
  unfold VQVAE_forward. rewrite Henc. apply raises_Raise.
Qed.

(** X6. The mask returned for a current position that indexes the grid
    has [size] rows of [size] entries; the entry at the current position is
    1 for the type "B" and 0 for every other type, and any other entry
    [(i, j)] is 1 exactly when [j < x] or [i < y]. *)
Theorem conv_mask_entries (size : nat) (x y : Z) (mask_type : string)
    (row col : nat) :
  np_index size y = Ok row -> np_index size x = Ok col ->
  exists mask,
    conv_mask_abstract size (x, y) mask_type = Ok mask /\
    grid_dims size size mask /\
    forall i j, i < size -> j < size ->
      grid_get mask i j
      = if (i =? row) && (j =? col)
        then (if String.eqb mask_type "B" then 1%Z else 0%Z)
        else if ((Z.of_nat j <? x) || (Z.of_nat i <? y))%Z then 1%Z
             else 0%Z.
Proof. exact (conv_mask_entries_of size x y mask_type row col). Qed.

(** X11. On images with 3 channels whose height and width are at least 8
    the encoder gives 256 channels on a grid of an eighth of the height and
    of the width, rounded down. *)
Theorem Encoder_shape (training : bool) (B H W : nat) :
  0 < B -> 8 <= H -> 8 <= W ->
  sequential_shape training Encoder (B, 3, H, W)
  = Ok (B, latent_space, H / 8, W / 8).
Proof. intros _ HH HW. now apply Encoder_shape_of. Qed.

(** X12. On a smaller image the encoder raises: one of its convolutions
    meets an input smaller than its kernel, or a batch normalisation in
    training mode a single value per channel. *)
Theorem Encoder_raises_below_8 (training : bool) (B H W : nat) :
  H < 8 \/ W < 8 ->
  raises (sequential_shape training Encoder (B, 3, H, W)).
Proof. exact (Encoder_raises_of training B H W). Qed.

(** X13. On a latent grid of 256 channels with at least one position the
    decoder gives 3 channels on a grid of 8 times the height and the
    width. *)
Theorem Decoder_shape (training : bool) (B h w : nat) :
  0 < B -> 1 <= h -> 1 <= w ->
  sequential_shape training Decoder (B, latent_space, h, w)
  = Ok (B, 3, 8 * h, 8 * w).
Proof. intros _ Hh Hw. now apply Decoder_shape_of. Qed.

(** ** The trainer of the graph network *)

Section TrainerFacts.
Variable load_and_build : string -> result nat.
Variable compile_and_fit : ModelTrainer -> result unit.
Variable summary : ModelTrainer -> result unit.
Variable predict_and_plot : ModelTrainer -> result unit.

(** X16. The constructor raises a [TypeError] unless it is called with
    exactly one argument, before anything is loaded; [main] calls it with
    two, so [main] raises a [TypeError] before anything is loaded or
    trained, whatever the collaborators do. *)
Theorem main_raises_TypeError :
  (forall args, length args <> 1 ->
     ModelTrainer_init load_and_build args = Raise TypeError) /\
  main load_and_build compile_and_fit summary predict_and_plot
  = Raise TypeError.
Proof.
  assert (Hinit : forall args, length args <> 1 ->
            ModelTrainer_init load_and_build args = Raise TypeError).
  { intros [|a [|b args]] Hlen; simpl in Hlen; try reflexivity. lia. }
  split; [exact Hinit|].
  unfold main. now rewrite Hinit by (simpl; lia).
Qed.

Lemma length_epoch_range (n : nat) : length (epoch_range n) = n.
Proof. unfold epoch_range. now rewrite length_map, length_seq. Qed.

(** X17. On every trainer the constructor returns, [lossPlots] raises a
    [ValueError] at its first plot: the epochs on the horizontal axis are
    350 and the recorded accuracies none, and nothing in the class adds
    to them. *)
Theorem lossPlots_raises (args : list string) (self : ModelTrainer) :
  ModelTrainer_init load_and_build args = Ok self ->
  length (epoch_range (epochs self)) = 350 /\
  trainAcc self = [] /\
  lossPlots self = Raise ValueError.
Proof.
  unfold ModelTrainer_init. intros E.
  destruct args as [|checkpointPath [|extra args]]; try discriminate.
  destruct (load_and_build checkpointPath) as [n|e]; [|discriminate].
  cbn [bind] in E. injection E as <-.
  cbn [epochs trainAcc]. split; [apply length_epoch_range|].
  split; [reflexivity|].
  unfold lossPlots, plt_plot. cbn [epochs trainAcc].
  now rewrite length_epoch_range.
Qed.
End TrainerFacts.

(** ** The further properties on concrete inputs *)

Lemma permute_round_trip_witness :
  (shape example_input = [1; 2; 1; 1] /\ tensor_wf example_input) /\
  exists e,
    permute_0231 example_input = Ok e /\ shape e = [1; 1; 1; 2] /\
    tensor_wf e /\ permute_0312 e = Ok example_input.
Proof.
  split; [by_computation|].
  apply (permute_round_trip example_input 1 2 1 1); reflexivity.
Defined.


Lemma forward_loss_at_float32_witness :
  (VQ_wf close_vq /\ shape close_input = [1; 1; 1; 1] /\
   tensor_wf close_input /\
   (1 * 1 * 1 * 1) mod embedding_dim close_vq = 0) /\
  exists l,
    forward_locals close_vq close_input = Ok l /\
    first_term l = second_term l /\
    first_term l = mse_loss (quantized_bhwc l) (channel_last l) /\
    (0 < 1 * 1 * 1 * 1 ->
     exists v,
       first_term l = Num v /\
       total_loss l
       = Num (SFadd prec32 emax32 v
                (SFmul prec32 emax32
                   (f32_of_Q (commitment_loss close_vq)) v))) /\
    (1 * 1 * 1 * 1 = 0 -> first_term l = NaN /\ total_loss l = NaN).
Proof.
  split; [by_computation|].
  apply (forward_loss_at_float32 close_vq close_input 1 1 1 1);
    by_computation.
Defined.

Lemma loss_gradient_to_encoder_unweighted_witness :
  (VQ_wf (fst along_input) /\ shape (snd along_input) = [1; 2; 1; 1] /\
   tensor_wf (snd along_input) /\
   (1 * 1 * 1 * 2) mod embedding_dim (fst along_input) = 0 /\
   0 < 1 * 1 * 1 * 2 /\
   zero_tangent (data (embedding_table (fst along_input)))) /\
  exists l t1 t,
    forward_locals (fst along_input) (snd along_input) = Ok l /\
    loss_tan (first_term l) = Some t1 /\
    loss_tan (total_loss l) = Some t /\
    (t == t1)%Q.
Proof.
  assert (Hz : zero_tangent (data (embedding_table (fst along_input))))
    by (repeat constructor).
  split; [by_computation; exact Hz|].
  apply (loss_gradient_to_encoder_unweighted
           (fst along_input) (snd along_input) 1 2 1 1);
    by_computation; exact Hz.
Defined.

Lemma loss_gradient_to_codebook_weighted_witness :
  (VQ_wf (fst along_codebook) /\
   shape (snd along_codebook) = [1; 2; 1; 1] /\
   tensor_wf (snd along_codebook) /\
   (1 * 1 * 1 * 2) mod embedding_dim (fst along_codebook) = 0 /\
   0 < 1 * 1 * 1 * 2 /\
   zero_tangent (data (snd along_codebook))) /\
  exists l t2 t,
    forward_locals (fst along_codebook) (snd along_codebook) = Ok l /\
    loss_tan (second_term l) = Some t2 /\
    loss_tan (total_loss l) = Some t /\
    (t == commitment_loss (fst along_codebook) * t2)%Q.
Proof.
  assert (Hz : zero_tangent (data (snd along_codebook)))
    by (repeat constructor).
  split; [by_computation; exact Hz|].
  apply (loss_gradient_to_codebook_weighted
           (fst along_codebook) (snd along_codebook) 1 2 1 1);
    by_computation; exact Hz.
Defined.

Lemma conv_mask_entries_witness :
  (np_index 3 1 = Ok 1 /\ np_index 3 1 = Ok 1) /\
  exists mask,
    conv_mask_abstract 3 (1, 1)%Z "A" = Ok mask /\
    grid_dims 3 3 mask /\
    forall i j, i < 3 -> j < 3 ->
      grid_get mask i j
      = if (i =? 1) && (j =? 1)
        then (if String.eqb "A" "B" then 1%Z else 0%Z)
        else if ((Z.of_nat j <? 1) || (Z.of_nat i <? 1))%Z then 1%Z
             else 0%Z.
Proof.
  split; [by_computation|].
  apply (conv_mask_entries 3 1 1 "A" 1 1); reflexivity.
Defined.

Lemma conv_mask_lets_later_rows_through_witness :
  (1 < 3 /\ 1 < 2 /\ 2 < 3 /\ 0 < 1) /\
  exists mask,
    conv_mask_abstract 3 (Z.of_nat 1, Z.of_nat 1) "A" = Ok mask /\
    grid_get mask 2 0 = 1%Z.
Proof.
  split; [lia|].
  apply (conv_mask_lets_later_rows_through 3 1 1 "A" 2 0); lia.
Defined.

Lemma VQ_init_builds_codebook_witness :
  (0 < 4 /\ 0 < 2) /\
  exists vq,
    VQ_init (fun _ => 0%Q) (fun _ => 0%Q) 4 2 (1 # 4) = inl vq /\
    VQ_wf vq /\
    num_embeddings vq = 4 /\ embedding_dim vq = 2 /\
    commitment_loss vq = (1 # 4)%Q /\
    shape (embedding_table vq) = [4; 2] /\
    length (data (embedding_table vq)) = 4 * 2.
Proof.
  split; [lia|].
  apply (VQ_init_builds_codebook (fun _ => 0%Q) (fun _ => 0%Q) 4 2 (1 # 4));
    lia.
Defined.

Lemma Encoder_shape_witness :
  (0 < 1 /\ 8 <= 8 /\ 8 <= 16) /\
  sequential_shape true Encoder (1, 3, 8, 16)
  = Ok (1, latent_space, 8 / 8, 16 / 8).
Proof.
  split; [lia|]. apply (Encoder_shape true 1 8 16); lia.
Defined.

Lemma Encoder_raises_below_8_witness :
  (7 < 8 \/ 8 < 8) /\
  raises (sequential_shape true Encoder (1, 3, 7, 8)).
Proof.
  split; [lia|]. apply (Encoder_raises_below_8 true 1 7 8); lia.
Defined.

Lemma Decoder_shape_witness :
  (0 < 1 /\ 1 <= 1 /\ 1 <= 2) /\
  sequential_shape true Decoder (1, latent_space, 1, 2)
  = Ok (1, 3, 8 * 1, 8 * 2).
Proof.
  split; [lia|]. apply (Decoder_shape true 1 1 2); lia.
Defined.

Lemma lossPlots_raises_witness :
  ModelTrainer_init (fun _ => Ok 4) ["training/cp.ckpt"%string]
  = Ok {| classes := 4; epochs := 350; trainAcc := []; trainLoss := [];
          valAcc := []; valLoss := [] |} /\
  length (epoch_range 350) = 350 /\
  lossPlots {| classes := 4; epochs := 350; trainAcc := [];
               trainLoss := []; valAcc := []; valLoss := [] |}
  = Raise ValueError.
Proof.
  split; [reflexivity|].
  destruct (lossPlots_raises (fun _ => Ok 4) ["training/cp.ckpt"%string]
              _ eq_refl) as (Hl & _ & Hr).
  split; [exact Hl|exact Hr].
Defined.


Lemma VQVAE_forward_raises_below_8_witness :
  (follows_shapes true Encoder (zero_network true Encoder) /\
   shape example_small_image = [1; 3; 4; 8] /\
   tensor_wf example_small_image /\ (4 < 8 \/ 8 < 8)) /\
  raises (zero_network true Encoder example_small_image) /\
  raises (VQVAE_forward (zero_network true Encoder)
            (zero_network true Decoder) example_vqvae_vq
            example_small_image).
Proof.
  split.
  - split; [apply zero_network_follows_shapes|].
    split; [reflexivity|]. split; [reflexivity|]. lia.
  - apply (VQVAE_forward_raises_below_8 true
             (zero_network true Encoder) (zero_network true Decoder)
             example_vqvae_vq example_small_image 1 4 8);
      try apply zero_network_follows_shapes; try reflexivity; lia.
Defined.
